(** * email_summary_bot/run_once.py: the digest pipeline

    A shallow embedding of the orchestration and data-transformation code of
    [run_once.py] (tabular parser, prompt builder, summarization client,
    digest formatter, delivery client, orchestrator), and the properties the
    specification states about them.

    Conventions of the embedding.
    - A Python [str] is the list of its Unicode code points, so that [len],
      slicing and comparison count and compare code points, as Python does.
    - A [Dict[str, str]] is a finite map from strings to strings, following
      the annotations of the source.
    - Effects (the file system, the clock, the log, sub-processes and HTTP
      requests) are threaded through a state-and-exception monad; what the
      outside world answers is given by the oracles of an environment. *)

From Stdlib Require Import ZArith NArith Ascii String List Lia.
From Stdlib Require Import Sorting.Sorted Sorting.Permutation DecimalString.
From stdpp Require Import base option list gmap.

Local Open Scope N_scope.

(** ** Python strings *)

Abbreviation pystr := (list N).

Module PyStr.

(** An ASCII literal of the source as a code point list. *)
Definition lit (s : string) : pystr :=
  List.map N_of_ascii (list_ascii_of_string s).

Definition LF : N := 10.
Definition nl : pystr := [LF].
(** U+2014 EM DASH, the only non-ASCII character of the source. *)
Definition em_dash : N := 8212.

Fixpoint str_eqb (a b : pystr) : bool :=
  match a, b with
  | [], [] => true
  | x :: a', y :: b' => (x =? y) && str_eqb a' b'
  | _, _ => false
  end.

(** [a < b] and [a <= b] on [str]: lexicographic on code points. *)
Fixpoint str_ltb (a b : pystr) : bool :=
  match a, b with
  | _, [] => false
  | [], _ :: _ => true
  | x :: a', y :: b' => (x <? y) || ((x =? y) && str_ltb a' b')
  end.

Definition str_leb (a b : pystr) : bool := negb (str_ltb b a).

(** [str.isspace] on one character (CPython's [_PyUnicode_IsWhitespace]). *)
Definition isspace (c : N) : bool :=
  ((9 <=? c) && (c <=? 13)) || ((28 <=? c) && (c <=? 32))
  || (c =? 133) || (c =? 160) || (c =? 5760)
  || ((8192 <=? c) && (c <=? 8202))
  || (c =? 8232) || (c =? 8233) || (c =? 8239) || (c =? 8287) || (c =? 12288).

Fixpoint lstrip (s : pystr) : pystr :=
  match s with
  | c :: s' => if isspace c then lstrip s' else s
  | [] => []
  end.

Definition rstrip (s : pystr) : pystr := rev (lstrip (rev s)).

(** [s.strip()] *)
Definition strip (s : pystr) : pystr := rstrip (lstrip s).

(** The line boundaries of [str.splitlines]. *)
Definition is_linebreak (c : N) : bool :=
  ((10 <=? c) && (c <=? 13)) || ((28 <=? c) && (c <=? 30))
  || (c =? 133) || (c =? 8232) || (c =? 8233).

Fixpoint splitlines_aux (cur s : pystr) : list pystr :=
  match s with
  | [] => match cur with [] => [] | _ => [cur] end
  | c :: s' =>
      if is_linebreak c then
        cur :: match s' with
               | d :: s'' =>
                   if (c =? 13) && (d =? 10) then splitlines_aux [] s''
                   else splitlines_aux [] s'
               | [] => splitlines_aux [] s'
               end
      else splitlines_aux (cur ++ [c]) s'
  end.

(** [s.splitlines()] *)
Definition splitlines (s : pystr) : list pystr := splitlines_aux [] s.

(** [sep.join(lines)] *)
Fixpoint join (sep : pystr) (lines : list pystr) : pystr :=
  match lines with
  | [] => []
  | [l] => l
  | l :: ls => l ++ sep ++ join sep ls
  end.

(** [str(n)] for an [int]. *)
Definition str_of_int (n : Z) : pystr :=
  lit (NilZero.string_of_int (Z.to_int n)).

(** [template.format] with keyword arguments, for replacement fields that are plain names,
    with the doubled-brace escapes.  [field] is the name read so far when
    the scan is inside a replacement field.  A field name that is not a
    keyword of the call is Python's [KeyError], a brace left alone its
    [ValueError]; both are [None] here, and so are the conversions and
    format specifications, which the template of the source does not use. *)
Fixpoint lookup_kw (k : pystr) (kw : list (pystr * pystr)) : option pystr :=
  match kw with
  | [] => None
  | (k', v) :: kw' => if str_eqb k k' then Some v else lookup_kw k kw'
  end.

Definition lbrace : N := 123.
Definition rbrace : N := 125.

Definition plain_name_char (c : N) : bool :=
  ((48 <=? c) && (c <=? 57)) || ((65 <=? c) && (c <=? 90))
  || ((97 <=? c) && (c <=? 122)) || (c =? 95).

Fixpoint format_scan (kw : list (pystr * pystr)) (t : pystr)
    (field : option pystr) : option pystr :=
  match t with
  | [] => match field with None => Some [] | Some _ => None end
  | c :: t' =>
      match field with
      | None =>
          if c =? lbrace then
            match t' with
            | d :: t'' =>
                if d =? lbrace then cons lbrace <$> format_scan kw t'' None
                else format_scan kw t' (Some [])
            | [] => None
            end
          else if c =? rbrace then
            match t' with
            | d :: t'' =>
                if d =? rbrace then cons rbrace <$> format_scan kw t'' None
                else None
            | [] => None
            end
          else cons c <$> format_scan kw t' None
      | Some name =>
          if c =? rbrace then
            match name with
            | [] => None
            | _ =>
                v ← lookup_kw name kw;
                app v <$> format_scan kw t' None
            end
          else if plain_name_char c then format_scan kw t' (Some (name ++ [c]))
          else None
      end
  end.

Definition format (template : pystr) (kw : list (pystr * pystr)) : option pystr :=
  format_scan kw template None.

(** [l[:n]] for an [int] bound: a negative bound counts from the end. *)
Definition slice_to {A} (n : Z) (l : list A) : list A :=
  if (0 <=? n)%Z then take (Z.to_nat n) l
  else take (length l - Z.to_nat (- n)) l.

End PyStr.

Import PyStr.
Arguments lit : simpl never.

(** ** Data model *)

(** An email row, [Dict[str, str]]: one row of the export as
    [csv.DictReader] yields it, with the type the source declares for it.
    Every value is a string, and a field the row does not have is a key
    that is absent. *)
Abbreviation Row := (gmap pystr pystr).

(** [d.get(key, default)] *)
Definition dict_get (d : Row) (key : string) (dflt : pystr) : pystr :=
  default dflt (d !! lit key).

(** The dict built at the end of the loop of [summarize_emails]: it has
    exactly the keys [sender], [subject] and [summary], and the formatter
    reads exactly these. *)
Record Summary := mkSummary {
  sender : pystr;
  subject : pystr;
  summary : pystr;
}.

(** The resolved settings, [Dict[str, str]]. *)
Abbreviation Config := (gmap pystr pystr).

Record Args := mkArgs {
  lookback : option Z;
  max_emails : option Z;
  dry_run : bool;
}.

(** The exceptions the program raises or meets.  All of them derive from
    [Exception]; [HTTPError] is a subclass of [URLError]. *)
Inductive Exn :=
  | ConfigError (missing : list pystr)
  | FileNotFoundError
  | CalledProcessError (returncode : Z)
  | HTTPError (code : Z) (detail : pystr)
  | URLError (reason : pystr)
  | RuntimeError (msg : pystr)
  | JSONDecodeError
  | UnicodeDecodeError
  | AttributeError
  | TypeError
  | KeyError (key : pystr)
  | ValueError
  | IndexError
  | OSError (errno : Z).

Inductive Result (A : Type) :=
  | Ok (a : A)
  | Raise (e : Exn).
Arguments Ok {A} a.
Arguments Raise {A} e.

(** ** [list.sort(key=..., reverse=True)]

    The built-in sort is stable, and stays so under [reverse=True]: the
    elements are ordered as if each comparison were reversed, and elements
    of equal keys keep the order they had.  It is modelled by the stable
    insertion sort into descending key order: an element is moved to the
    right only past elements of a strictly greater key. *)
Section Sort.
Context {A : Type} (key : A → pystr).

Fixpoint insert_desc (x : A) (l : list A) : list A :=
  match l with
  | [] => [x]
  | y :: l' =>
      if str_ltb (key x) (key y) then y :: insert_desc x l'
      else x :: l
  end.

Definition sort_desc (l : list A) : list A := foldr insert_desc [] l.

(** [a] may stand before [b] in descending key order. *)
Definition desc (a b : A) : Prop := str_leb (key b) (key a) = true.
End Sort.

(** ** Tabular parser: the part of [parse_tsv] after the file is read *)

(** [row["received_at"] = row.get("received_at", "")] *)
Definition default_received_at (row : Row) : Row :=
  <[lit "received_at" := dict_get row "received_at" []]> row.

(** [lambda r: r.get("received_at", "")] *)
Definition sort_key (r : Row) : pystr := dict_get r "received_at" [].

(** [rows = [row for row in reader if row]], the defaulting loop and the
    sort, on the rows the reader yields. *)
Definition parse_rows (reader : list Row) : list Row :=
  let rows := filter (λ row : Row, row ≠ ∅) reader in
  let rows := default_received_at <$> rows in
  sort_desc sort_key rows.

(** ** Prompt builder *)

Definition template : pystr :=
  lit "Summarize the following unread email in under 70 words. "
  ++ lit "Highlight sender, topic, and any action items. Use single paragraph." ++ nl
  ++ lit "Sender: {sender}" ++ nl ++ lit "Subject: {subject}" ++ nl
  ++ lit "Received: {received_at}" ++ nl ++ lit "Body:" ++ nl ++ lit "{body}" ++ nl.

(** [build_prompt]; [template.format] cannot fail on this template, the
    [None] case only makes the definition total. *)
Definition build_prompt (email_row : Row) : pystr :=
  let body := take 4000 (dict_get email_row "body" []) in
  default [] (format template
    [ (lit "sender", dict_get email_row "sender" (lit "Unknown"));
      (lit "subject", dict_get email_row "subject" (lit "(no subject)"));
      (lit "received_at", dict_get email_row "received_at" []);
      (lit "body", body) ]).

(** ** Digest formatter *)

(** ["-" * 30] *)
Definition divider : pystr := repeat 45 30.

(** [f"**UTD Mail Digest - {timestamp}**"] *)
Definition digest_title (timestamp : pystr) : pystr :=
  lit "**UTD Mail Digest - " ++ timestamp ++ lit "**".

(** [f"**{entry['sender']} — {entry['subject']}**"] *)
Definition entry_header (entry : Summary) : pystr :=
  lit "**" ++ sender entry ++ [32; em_dash; 32] ++ subject entry ++ lit "**".

(** The body of the [for] loop: three [lines.append]. *)
Definition append_entry (lines : list pystr) (entry : Summary) : list pystr :=
  ((lines ++ [entry_header entry]) ++ [strip (summary entry)]) ++ [divider].

(** [lines[:-1] if lines[-1] == divider else lines] *)
Definition drop_trailing_divider (lines : list pystr) : list pystr :=
  match last lines with
  | Some l => if str_eqb l divider then removelast lines else lines
  | None => lines
  end.

(** [format_discord_payload], given the formatted local time; the result
    is the value of the [content] key of the payload. *)
Definition format_discord_payload (timestamp : pystr) (summaries : list Summary) : pystr :=
  let lines := foldl append_entry [digest_title timestamp] summaries in
  let content := join nl (drop_trailing_divider lines) in
  take 1900 content.

(** ** The outside world *)

(** A decoded JSON document, as [json.loads] returns it. *)
#[local] Unset Elimination Schemes.
Inductive Json :=
  | JNull
  | JBool (b : bool)
  | JInt (z : Z)
  | JFloat (nonzero : bool)
  | JStr (s : pystr)
  | JArr (items : list Json)
  | JObj (fields : list (pystr * Json)).
#[local] Set Elimination Schemes.

(** The body of a request: [json.dumps] of a fixed shape around one string. *)
Inductive Payload :=
  | GeminiPayload (prompt : pystr)
  | DiscordPayload (content : pystr).

Record Request := mkRequest {
  url : pystr;
  data : Payload;
}.

(** What each [logging] call of the program records. *)
Inductive LogMsg :=
  | LogRunningAppleScript (max_emails lookback : Z)
  | LogNoTsvExport (path : pystr)
  | LogGeminiHTTPError (code : Z) (detail : pystr)
  | LogGeminiURLError (reason : pystr)
  | LogSummarizationFailed (subject : option pystr) (exc : Exn)
  | LogNoUnreadEmails
  | LogReadEmails (n : nat)
  | LogNoSummaries
  | LogDryRunEntry (sender subject summary : pystr)
  | LogDiscordHTTPError (code : Z) (detail : pystr)
  | LogDiscordURLError (reason : pystr)
  | LogPosted (n : nat)
  | LogConfigError (missing : list pystr)
  | LogAppleScriptFailed (returncode : Z).

Inductive Event :=
  | EvLog (msg : LogMsg)
  | EvRun (cmd : list pystr)
  | EvHttp (req : Request).

(** The state a run acts on: for each existing path, the rows
    [csv.DictReader] yields from the file there; and what the run has done to
    the outside so far, oldest first. *)
Record World := mkWorld {
  fs : gmap pystr (list Row);
  trace : list Event;
}.

(** The collaborators the program only calls. *)
Record Env := mkEnv {
  SCRIPT_PATH : pystr;
  (** [tempfile.mkstemp(prefix, suffix, dir=TMP_DIR)]: the name it picks *)
  mkstemp_name : World → Result pystr;
  (** [osascript]: its return code and what it leaves on disk, or the
      exception of a process that could not be started *)
  osascript : World → list pystr → Result (Z * gmap pystr (list Row));
  (** [request.urlopen(req).read()]: the exception of the transport, or the
      body as [json.loads] reads it, which is the document or the exception
      [json.loads] raises on that body ([JSONDecodeError] on text that is
      not JSON, [UnicodeDecodeError] on bytes that are no text) *)
  urlopen : World → Request → Result (Result Json);
  (** [dt.datetime.now().strftime("%Y-%m-%d %H:%M")] *)
  now : World → pystr;
  (** the built-in [int] on a [str] *)
  int_of_str : pystr → option Z;
}.

(** ** The monad of the program: state and exceptions *)

Definition M (A : Type) : Type := World → Result A * World.

Definition ret {A} (a : A) : M A := λ w, (Ok a, w).
Definition raise {A} (e : Exn) : M A := λ w, (Raise e, w).
Definition bind {A B} (m : M A) (k : A → M B) : M B :=
  λ w, match m w with
       | (Ok a, w') => k a w'
       | (Raise e, w') => (Raise e, w')
       end.
(** [try: m; except Exception as exc: h exc] *)
Definition try_except {A} (m : M A) (h : Exn → M A) : M A :=
  λ w, match m w with
       | (Ok a, w') => (Ok a, w')
       | (Raise e, w') => h e w'
       end.
(** [try: m; finally: f]: [f] runs on every way out of [m]; an exception of
    [f] replaces the outcome of [m]. *)
Definition try_finally {A} (m : M A) (f : M unit) : M A :=
  λ w, match m w with
       | (r, w') =>
           match f w' with
           | (Ok _, w'') => (r, w'')
           | (Raise e, w'') => (Raise e, w'')
           end
       end.
Definition lift {A} (r : Result A) : M A := λ w, (r, w).

Notation "'let*' x ':=' m 'in' k" := (bind m (λ x, k))
  (at level 10, x name, m at level 100, k at level 200).
Notation "m ';;' k" := (bind m (λ _, k))
  (at level 100, k at level 200, right associativity).

Definition emit (e : Event) : M unit :=
  λ w, (Ok tt, mkWorld (fs w) (trace w ++ [e])).
Definition log (msg : LogMsg) : M unit := emit (EvLog msg).

(** [path.exists()] *)
Definition path_exists (path : pystr) : M bool :=
  λ w, (Ok (bool_decide (is_Some (fs w !! path))), w).

(** [path.unlink(missing_ok=True)] *)
Definition unlink_missing_ok (path : pystr) : M unit :=
  λ w, (Ok tt, mkWorld (delete path (fs w)) (trace w)).

(** [for x in xs: body x] *)
Fixpoint for_each {A} (xs : list A) (body : A → M unit) : M unit :=
  match xs with
  | [] => ret tt
  | x :: xs' => body x;; for_each xs' body
  end.

(** ** Loading the [.env] file *)

(** [line.split("=", 1)] for a line that contains ["="]: what stands
    before the first ["="] and what stands after it; [None] when there is
    no ["="] in the line. *)
Fixpoint split_first (sep : N) (s : pystr) : option (pystr * pystr) :=
  match s with
  | [] => None
  | c :: s' =>
      if c =? sep then Some ([], s')
      else match split_first sep s' with
           | Some (before, after) => Some (c :: before, after)
           | None => None
           end
  end.

Definition equals_sign : N := 61.
Definition hash_sign : N := 35.

(** The body of the loop of [load_env]. *)
Definition load_env_line (values : Config) (line : pystr) : Config :=
  let line := strip line in
  match line with
  | [] => values
  | c :: _ =>
      if c =? hash_sign then values
      else
        match split_first equals_sign line with
        | None => values
        | Some (key, raw_value) => <[strip key := strip raw_value]> values
        end
  end.

(** [load_env], on the text of the file when the file exists. *)
Definition load_env (text : option pystr) : Config :=
  match text with
  | None => ∅
  | Some text => foldl load_env_line ∅ (splitlines text)
  end.

(** ** Configuration *)

(** [not config.get(key)]: the key is absent or its value is empty. *)
Definition config_missing (config : Config) (key : pystr) : bool :=
  match config !! key with
  | Some (_ :: _) => false
  | _ => true
  end.

(** [config.setdefault(key, value)] *)
Definition setdefault (key value : pystr) (config : Config) : Config :=
  match config !! key with
  | Some _ => config
  | None => <[key := value]> config
  end.

Definition resolve_config (args : Args) (env_values : Config) : Result Config :=
  let config := env_values in
  let config :=
    match lookback args with
    | Some n => <[lit "LOOKBACK_MINUTES" := str_of_int n]> config
    | None => config
    end in
  let config :=
    match max_emails args with
    | Some n => <[lit "MAX_EMAILS" := str_of_int n]> config
    | None => config
    end in
  let required := [lit "GEMINI_API_KEY"; lit "DISCORD_WEBHOOK"] in
  let missing := filter (λ key, config_missing config key = true) required in
  match missing with
  | _ :: _ =>
      if dry_run args then
        Ok (setdefault (lit "GEMINI_MODEL") (lit "gemini-1.5-flash")
             (setdefault (lit "MAX_EMAILS") (lit "15")
               (setdefault (lit "LOOKBACK_MINUTES") (lit "60") config)))
      else Raise (ConfigError missing)
  | [] =>
      Ok (setdefault (lit "GEMINI_MODEL") (lit "gemini-1.5-flash")
           (setdefault (lit "MAX_EMAILS") (lit "15")
             (setdefault (lit "LOOKBACK_MINUTES") (lit "60") config)))
  end.

(** ** Summarization client: reading the response *)

(** [obj.get(key)]: only a dict has the method. *)
Fixpoint assoc (key : pystr) (fields : list (pystr * Json)) : Json :=
  match fields with
  | [] => JNull
  | (k, v) :: fields' => if str_eqb key k then v else assoc key fields'
  end.

Definition json_get (obj : Json) (key : string) : Result Json :=
  match obj with
  | JObj fields => Ok (assoc (lit key) fields)
  | _ => Raise AttributeError
  end.

(** The truth value of a Python object. *)
Definition truthy (v : Json) : bool :=
  match v with
  | JNull => false
  | JBool b => b
  | JInt z => negb (z =? 0)%Z
  | JFloat nonzero => nonzero
  | JStr s => match s with [] => false | _ => true end
  | JArr items => match items with [] => false | _ => true end
  | JObj fields => match fields with [] => false | _ => true end
  end.

(** [v or dflt] *)
Definition or_else (v dflt : Json) : Json := if truthy v then v else dflt.

(** What [for x in v] iterates over: the items of a list, the keys of a
    dict, the characters of a string; the other values are not iterable. *)
Definition json_iter (v : Json) : Result (list Json) :=
  match v with
  | JArr items => Ok items
  | JObj fields => Ok ((λ kv, JStr kv.1) <$> fields)
  | JStr s => Ok ((λ c, JStr [c]) <$> s)
  | _ => Raise TypeError
  end.

(** The inner loop of [gemini_request]: [Ok None] when it ends without
    returning. *)
Fixpoint scan_parts (parts : list Json) : Result (option pystr) :=
  match parts with
  | [] => Ok None
  | part :: parts' =>
      match json_get part "text" with
      | Raise e => Raise e
      | Ok text =>
          if truthy text then
            match text with
            | JStr s => Ok (Some (strip s))
            | _ => Raise AttributeError
            end
          else scan_parts parts'
      end
  end.

(** The outer loop. *)
Fixpoint scan_candidates (candidates : list Json) : Result (option pystr) :=
  match candidates with
  | [] => Ok None
  | cand :: candidates' =>
      match json_get cand "content" with
      | Raise e => Raise e
      | Ok content =>
          match json_get (or_else content (JObj [])) "parts" with
          | Raise e => Raise e
          | Ok parts =>
              match json_iter (or_else parts (JArr [])) with
              | Raise e => Raise e
              | Ok parts =>
                  match scan_parts parts with
                  | Raise e => Raise e
                  | Ok (Some text) => Ok (Some text)
                  | Ok None => scan_candidates candidates'
                  end
              end
          end
      end
  end.

(** Lines 138 to 147 of [gemini_request]. *)
Definition extract_text (response_json : Json) : Result pystr :=
  match json_get response_json "candidates" with
  | Raise e => Raise e
  | Ok candidates =>
      match json_iter (or_else candidates (JArr [])) with
      | Raise e => Raise e
      | Ok candidates =>
          match scan_candidates candidates with
          | Raise e => Raise e
          | Ok (Some text) => Ok text
          | Ok None => Raise (RuntimeError (lit "Gemini response did not contain text"))
          end
      end
  end.

(** ** The program *)

Section Program.
Context (env : Env).

(** [subprocess.run(cmd, check=True)] *)
Definition subprocess_run_check (cmd : list pystr) : M unit :=
  λ w, match osascript env w cmd with
       | Raise e => (Raise e, mkWorld (fs w) (trace w ++ [EvRun cmd]))
       | Ok (returncode, fs') =>
           (if (returncode =? 0)%Z then Ok tt
            else Raise (CalledProcessError returncode),
            mkWorld fs' (trace w ++ [EvRun cmd]))
       end.

Definition run_applescript (lookback max_emails : Z) (export_path : pystr) : M unit :=
  let* script_exists := path_exists (SCRIPT_PATH env) in
  if negb script_exists then raise FileNotFoundError
  else
    let cmd := [lit "osascript"; SCRIPT_PATH env; str_of_int lookback;
                str_of_int max_emails; export_path] in
    log (LogRunningAppleScript max_emails lookback);;
    subprocess_run_check cmd.

Definition parse_tsv (tsv_path : pystr) : M (list Row) :=
  λ w, match fs w !! tsv_path with
       | None => (log (LogNoTsvExport tsv_path);; ret []) w
       | Some reader => (Ok (parse_rows reader), w)
       end.

Definition gemini_url (api_key model : pystr) : pystr :=
  lit "https://generativelanguage.googleapis.com/v1beta/models/" ++ model
  ++ lit ":generateContent?key=" ++ api_key.

(** [request.urlopen(req)] and [resp.read()] *)
Definition http_post (req : Request) : M (Result Json) :=
  λ w, (urlopen env w req, mkWorld (fs w) (trace w ++ [EvHttp req])).

Definition gemini_request (api_key model prompt : pystr) : M pystr :=
  let req := mkRequest (gemini_url api_key model) (GeminiPayload prompt) in
  let* response_body :=
    try_except (http_post req)
      (λ exc, match exc with
              | HTTPError code detail =>
                  log (LogGeminiHTTPError code detail);; raise exc
              | URLError reason => log (LogGeminiURLError reason);; raise exc
              | _ => raise exc
              end) in
  match response_body with
  | Raise exc => raise exc
  | Ok response_json => lift (extract_text response_json)
  end.

(** The body of the loop of [summarize_emails]: the summary text, or
    [None] where the loop goes on to the next row ([continue]). *)
Definition summary_text_of (api_key model : pystr) (dry_run : bool) (row : Row)
    (prompt : pystr) : M (option pystr) :=
  if dry_run then
    match head (splitlines prompt) with
    | Some first_line => ret (Some (lit "[dry-run] " ++ first_line))
    | None => raise IndexError
    end
  else
    try_except
      (let* text := gemini_request api_key model prompt in ret (Some text))
      (λ exc, log (LogSummarizationFailed (row !! lit "subject") exc);; ret None).

Definition summary_of (row : Row) (summary_text : pystr) : Summary :=
  mkSummary (dict_get row "sender" (lit "Unknown"))
            (dict_get row "subject" (lit "(no subject)"))
            summary_text.

Fixpoint summarize_loop (api_key model : pystr) (dry_run : bool)
    (rows : list Row) (summaries : list Summary) : M (list Summary) :=
  match rows with
  | [] => ret summaries
  | row :: rows' =>
      let prompt := build_prompt row in
      let* summary_text := summary_text_of api_key model dry_run row prompt in
      match summary_text with
      | None => summarize_loop api_key model dry_run rows' summaries
      | Some text =>
          summarize_loop api_key model dry_run rows'
            (summaries ++ [summary_of row text])
      end
  end.

Definition summarize_emails (rows : list Row) (config : Config) (dry_run : bool)
    : M (list Summary) :=
  let api_key := default [] (config !! lit "GEMINI_API_KEY") in
  let model := default (lit "gemini-1.5-flash") (config !! lit "GEMINI_MODEL") in
  summarize_loop api_key model dry_run rows [].

Definition post_to_discord (webhook_url payload : pystr) : M unit :=
  let req := mkRequest webhook_url (DiscordPayload payload) in
  try_except (http_post req;; ret tt)
    (λ exc, match exc with
            | HTTPError code detail =>
                log (LogDiscordHTTPError code detail);; raise exc
            | URLError reason => log (LogDiscordURLError reason);; raise exc
            | _ => raise exc
            end).

(** [config[key]] *)
Definition config_item (config : Config) (key : pystr) : M pystr :=
  match config !! key with
  | Some v => ret v
  | None => raise (KeyError key)
  end.

(** [int(config[key])] *)
Definition config_int (config : Config) (key : pystr) : M Z :=
  let* v := config_item config key in
  match int_of_str env v with
  | Some n => ret n
  | None => raise ValueError
  end.

(** [tempfile.mkstemp] and [os.close]: the new file exists and is empty. *)
Definition mkstemp : M pystr :=
  λ w, match mkstemp_name env w with
       | Ok name => (Ok name, mkWorld (<[name := []]> (fs w)) (trace w))
       | Raise e => (Raise e, w)
       end.

(** Lines 217 to 227 of [main]: what becomes of the summaries. *)
Definition conclude (config : Config) (dry_run : bool) (summaries : list Summary)
    : M Z :=
  match summaries with
  | [] => log LogNoSummaries;; ret 0%Z
  | _ =>
      if dry_run then
        for_each summaries (λ entry,
          log (LogDryRunEntry (sender entry) (subject entry) (summary entry)));;
        ret 0%Z
      else
        let* timestamp := (λ w, (Ok (now env w), w)) in
        let payload := format_discord_payload timestamp summaries in
        let* webhook := config_item config (lit "DISCORD_WEBHOOK") in
        post_to_discord webhook payload;;
        log (LogPosted (length summaries));;
        ret 0%Z
  end.

(** Lines 211 to 216 of [main], and on to the lines above. *)
Definition process_export (config : Config) (dry_run : bool) (max_emails : Z)
    (tmp_export : pystr) : M Z :=
  let* emails := parse_tsv tmp_export in
  match emails with
  | [] => log LogNoUnreadEmails;; ret 0%Z
  | _ =>
      log (LogReadEmails (length emails));;
      let* summaries :=
        summarize_emails (slice_to max_emails emails) config dry_run in
      conclude config dry_run summaries
  end.

(** The [try] block of [main]. *)
Definition main_body (config : Config) (dry_run : bool) (lookback max_emails : Z)
    (tmp_export : pystr) : M Z :=
  run_applescript lookback max_emails tmp_export;;
  process_export config dry_run max_emails tmp_export.

(** [main], from the parsed arguments and the loaded [.env] values on. *)
Definition main (args : Args) (env_values : Config) : M Z :=
  let* config := lift (resolve_config args env_values) in
  let* lookback := config_int config (lit "LOOKBACK_MINUTES") in
  let* max_emails := config_int config (lit "MAX_EMAILS") in
  let* tmp_export := mkstemp in
  try_finally (main_body config (dry_run args) lookback max_emails tmp_export)
              (unlink_missing_ok tmp_export).

(** The status of a process that ends by [sys.exit(code)]: the low eight
    bits of [code].  A return code within 0..255 is its own status; the
    return code [-9] of a child killed by signal 9 gives 247. *)
Definition exit_status (code : Z) : Z := (code mod 256)%Z.

(** The [__main__] block: the exit status of the process.  An exception
    no handler catches ends the interpreter with status 1. *)
Definition script (args : Args) (env_values : Config) : World → Z * World :=
  λ w, match main args env_values w with
       | (Ok code, w') => (exit_status code, w')
       | (Raise (ConfigError missing), w') =>
           (1%Z, mkWorld (fs w') (trace w' ++ [EvLog (LogConfigError missing)]))
       | (Raise (CalledProcessError returncode), w') =>
           (exit_status returncode,
            mkWorld (fs w') (trace w' ++ [EvLog (LogAppleScriptFailed returncode)]))
       | (Raise _, w') => (1%Z, w')
       end.

End Program.

(** ** The tabular parser on the rows [csv.DictReader] yields *)

Module Reader.

(** A row as [csv.DictReader] yields it.  Its keys are the field names of
    the header.  A cell is a string, or [None] (Python's [None], the
    reader's [restval]) where the record has fewer cells than the header:
    the key is then present, with [None] under it.  The cells a record has
    beyond the header are kept as a list under the key [None] (the reader's
    [restkey]). *)
Record RawRow := mkRawRow {
  cells : gmap pystr (option pystr);
  surplus : option (list pystr);
}.

(** [dict(zip(fieldnames, row))], then [d[restkey] = row[lf:]] or
    [d.update(dict.fromkeys(fieldnames[lr:], restval))]. *)
Definition dict_row (fieldnames record : list pystr) : RawRow :=
  let d : gmap pystr (option pystr) :=
    foldl (λ d kv, <[kv.1 := Some kv.2]> d) ∅ (zip fieldnames record) in
  let lf := length fieldnames in
  let lr := length record in
  if (lf <? lr)%nat then mkRawRow d (Some (drop lf record))
  else if (lr <? lf)%nat then
    mkRawRow (foldl (λ d k, <[k := None]> d) d (drop lr fieldnames)) None
  else mkRawRow d None.

(** [csv.DictReader(handle, delimiter)] on the records of the file, each
    the list of its cells: the first record is the header, and a record
    without cells (a blank line) is passed over. *)
Definition DictReader (records : list (list pystr)) : list RawRow :=
  match records with
  | [] => []
  | fieldnames :: records' =>
      dict_row fieldnames <$> filter (λ record, record ≠ []) records'
  end.

(** The truth value of a row: a dict is false when it has no key. *)
Definition nonempty (row : RawRow) : Prop :=
  cells row ≠ ∅ ∨ is_Some (surplus row).

#[global] Instance nonempty_dec row : Decision (nonempty row).
Proof. unfold nonempty. apply _. Defined.

(** [row.get(key, default)] for a string key: what stands under the key,
    be it [None]; the default only where the key is absent. *)
Definition get (row : RawRow) (key : string) (dflt : pystr) : option pystr :=
  default (Some dflt) (cells row !! lit key).

(** [row["received_at"] = row.get("received_at", "")] *)
Definition default_received_at (row : RawRow) : RawRow :=
  mkRawRow (<[lit "received_at" := get row "received_at" []]> (cells row))
           (surplus row).

(** [lambda r: r.get("received_at", "")] *)
Definition sort_key (r : RawRow) : option pystr := get r "received_at" [].

(** [a < b] on two keys: strings are compared; [None] is ordered neither
    against a string nor against [None]. *)
Definition lt (a b : option pystr) : Result bool :=
  match a, b with
  | Some x, Some y => Ok (str_ltb x y)
  | _, _ => Raise TypeError
  end.

(** [rows.sort(key=..., reverse=True)] as the stable insertion sort into
    descending key order, with the comparisons the sort makes: between two
    or more rows every row is compared with another one, so one key [None]
    makes the sort raise; a single row is compared with nothing. *)
Fixpoint insert (x : RawRow) (l : list RawRow) : Result (list RawRow) :=
  match l with
  | [] => Ok [x]
  | y :: l' =>
      match lt (sort_key x) (sort_key y) with
      | Raise e => Raise e
      | Ok true =>
          match insert x l' with
          | Ok l'' => Ok (y :: l'')
          | Raise e => Raise e
          end
      | Ok false => Ok (x :: l)
      end
  end.

Fixpoint sort (l : list RawRow) : Result (list RawRow) :=
  match l with
  | [] => Ok []
  | x :: l' =>
      match sort l' with
      | Ok sorted => insert x sorted
      | Raise e => Raise e
      end
  end.

(** Lines 101 to 105: the rows kept, the defaulting loop and the sort. *)
Definition parse_rows (reader : list RawRow) : Result (list RawRow) :=
  let rows := filter nonempty reader in
  let rows := default_received_at <$> rows in
  sort rows.

(** [parse_tsv] on the files at hand.  A file is what reading it through
    the reader gives: its rows, or the exception raised on the way (a file
    that is not UTF-8, a field over the size limit of [csv]).  The result
    comes with what the call logs. *)
Definition parse_tsv (tsv_path : pystr)
    (files : gmap pystr (Result (list RawRow)))
    : Result (list RawRow) * list LogMsg :=
  match files !! tsv_path with
  | None => (Ok [], [LogNoTsvExport tsv_path])
  | Some (Raise e) => (Raise e, [])
  | Some (Ok reader) => (parse_rows reader, [])
  end.

(** A row of the declared type [Dict[str, str]] among the reader's rows:
    every cell a string and no surplus. *)
Definition of_row (row : Row) : RawRow := mkRawRow (Some <$> row) None.

(** Files of such rows, each of them readable. *)
Definition of_files (files : gmap pystr (list Row))
    : gmap pystr (Result (list RawRow)) :=
  (λ reader : list Row, Ok (of_row <$> reader)) <$> files.

(** The key of a row as a string; a row without one counts as of empty
    key. *)
Definition key_str (r : RawRow) : pystr := default [] (sort_key r).

(** The rows of a file in the order of the file, the empty ones dropped
    and the field defaulted: what the sort is given. *)
Definition kept (file : option (Result (list RawRow))) : list RawRow :=
  match file with
  | Some (Ok reader) => default_received_at <$> filter nonempty reader
  | _ => []
  end.

(** [a] may stand before [b] in descending key order: both keys are
    strings, and that of [b] is not above that of [a]. *)
Definition desc (a b : RawRow) : Prop :=
  ∃ x y, sort_key a = Some x ∧ sort_key b = Some y ∧ str_leb y x = true.

(** The ways [parse_tsv] raises [e] on a file: reading the file raised [e];
    or the sort met a key [None] among two or more rows. *)
Definition raises (file : option (Result (list RawRow))) (e : Exn) : Prop :=
  file = Some (Raise e)
  ∨ (e = TypeError ∧ (2 ≤ length (kept file))%nat
     ∧ Exists (λ r, sort_key r = None) (kept file)).

End Reader.

(** * Definitions used to state the properties *)

(** The first line of the template. *)
Definition instruction : pystr :=
  lit "Summarize the following unread email in under 70 words. "
  ++ lit "Highlight sender, topic, and any action items. Use single paragraph.".

(** The prompt up to the embedded body. *)
Definition prompt_head (sender subject received_at : pystr) : pystr :=
  instruction ++ nl
  ++ lit "Sender: " ++ sender ++ nl
  ++ lit "Subject: " ++ subject ++ nl
  ++ lit "Received: " ++ received_at ++ nl
  ++ lit "Body:" ++ nl.

(** The sender and the subject as the prompt and the summary record show
    them. *)
Definition shown_sender (row : Row) : pystr := dict_get row "sender" (lit "Unknown").
Definition shown_subject (row : Row) : pystr := dict_get row "subject" (lit "(no subject)").

(** The three lines of one entry. *)
Definition entry_lines (entry : Summary) : list pystr :=
  [entry_header entry; strip (summary entry); divider].

(** The lines that are joined, for the summaries [init ++ [e_last]]. *)
Definition digest_lines (timestamp : pystr) (init : list Summary) (e_last : Summary)
    : list pystr :=
  digest_title timestamp :: flat_map entry_lines init
  ++ [entry_header e_last; strip (summary e_last)].

(** The placeholder property as the specification states it, for one
    row: the sender and the subject shown are never empty, and a field that
    is absent or empty shows as its placeholder. *)
Definition placeholder_claim (row : Row) : Prop :=
  shown_sender row ≠ [] ∧ shown_subject row ≠ []
  ∧ (default [] (row !! lit "sender") = [] → shown_sender row = lit "Unknown")
  ∧ (default [] (row !! lit "subject") = [] → shown_subject row = lit "(no subject)").

(** A row whose sender and subject cells are empty. *)
Definition blank_sender_row : Row :=
  {[ lit "sender" := []; lit "subject" := [];
     lit "received_at" := lit "2024-01-01T10:00"; lit "body" := lit "Need approval" ]}.


(** ** What a run did, read off its trace *)

Definition http_requests (t : list Event) : list Request :=
  omap (λ e, match e with EvHttp req => Some req | _ => None end) t.

(** The prompts sent to the summarization backend, oldest first. *)
Definition gemini_prompts (t : list Event) : list pystr :=
  omap (λ req, match data req with GeminiPayload p => Some p | _ => None end)
       (http_requests t).

(** The contents posted to the webhook. *)
Definition discord_posts (t : list Event) : list pystr :=
  omap (λ req, match data req with DiscordPayload c => Some c | _ => None end)
       (http_requests t).

(** The world once [mkstemp] has made the file [p]. *)
Definition created_tmp (w : World) (p : pystr) : World :=
  mkWorld (<[p := []]> (fs w)) (trace w).

(** The run gets as far as its temporary file: the configuration resolves
    to [config], its two numbers read as [lookback] and [max_emails], and
    [mkstemp] makes the file [p]. *)
Definition starts (env : Env) (args : Args) (env_values : Config) (w : World)
    (config : Config) (lookback max_emails : Z) (p : pystr) : Prop :=
  resolve_config args env_values = Ok config
  ∧ config !! lit "LOOKBACK_MINUTES" ≫= int_of_str env = Some lookback
  ∧ config !! lit "MAX_EMAILS" ≫= int_of_str env = Some max_emails
  ∧ mkstemp_name env w = Ok p.

(** The export step of such a run returns, leaving the world [w1]. *)
Definition exports (env : Env) (w : World) (lookback max_emails : Z) (p : pystr)
    (w1 : World) : Prop :=
  run_applescript env lookback max_emails p (created_tmp w p) = (Ok tt, w1).




(** The summarization attempts over [rows], one after the other: what
    [gemini_request] answers for each row, a failure being logged before
    the next attempt. *)
Fixpoint attempts (env : Env) (api_key model : pystr) (rows : list Row) (w : World)
    : list (Row * Result pystr) * World :=
  match rows with
  | [] => ([], w)
  | row :: rows' =>
      let r := gemini_request env api_key model (build_prompt row) w in
      let w' :=
        match r.1 with
        | Ok _ => r.2
        | Raise exc => (log (LogSummarizationFailed (row !! lit "subject") exc) r.2).2
        end in
      let rest := attempts env api_key model rows' w' in
      ((row, r.1) :: rest.1, rest.2)
  end.

(** One summary record per attempt that succeeded, in the order of the
    attempts. *)
Definition successes (att : list (Row * Result pystr)) : list Summary :=
  omap (λ a, match a.2 with
             | Ok text => Some (summary_of a.1 text)
             | Raise _ => None
             end) att.

Definition is_ok {A} (r : Result A) : bool :=
  match r with Ok _ => true | Raise _ => false end.

(** The world in which the summarization starts: the file was read and
    the number of rows logged. *)
Definition summarizing_world (w1 : World) (emails : list Row) : World :=
  (log (LogReadEmails (length emails)) w1).2.

(** ** Observations a computation leaves alone *)

(** Appending the event [e] does not change what [obs] reads off a trace. *)
Definition ignores {X} (obs : list Event → X) (e : Event) : Prop :=
  ∀ t, obs (t ++ [e]) = obs t.

(** Running [m] does not change what [obs] reads off the trace. *)
Definition keeps {X A} (obs : list Event → X) (m : M A) : Prop :=
  ∀ w, obs (trace (m w).2) = obs (trace w).

(** [obs] only reads the requests to the network. *)
Definition offline {X} (obs : list Event → X) : Prop :=
  (∀ msg, ignores obs (EvLog msg)) ∧ (∀ cmd, ignores obs (EvRun cmd)).

(** ** The [.env] file as text *)

(** A string starts with a whitespace character. *)
Definition headspace (s : pystr) : bool :=
  match s with
  | c :: _ => isspace c
  | [] => false
  end.

Definition no_linebreak (s : pystr) : bool := forallb (λ c, negb (is_linebreak c)) s.

(** One assignment written as a line, and a list of assignments written as
    a file, one per line. *)
Definition env_line (kv : pystr * pystr) : pystr := kv.1 ++ equals_sign :: kv.2.
Definition render_env (kvs : list (pystr * pystr)) : pystr :=
  flat_map (λ kv, env_line kv ++ nl) kvs.

(** A key that [load_env] reads back as it is written: trimmed, on one
    line, without ["="] and not starting a comment. *)
Definition plain_key (k : pystr) : Prop :=
  strip k = k ∧ no_linebreak k = true ∧ (equals_sign ∉ k) ∧ (head k ≠ Some hash_sign).

(** A value that is read back as it is written: trimmed and on one line. *)
Definition plain_value (v : pystr) : Prop :=
  strip v = v ∧ no_linebreak v = true.

(** A line [load_env] passes over: blank, a comment, or without ["="]. *)
Definition skipped_line (line : pystr) : Prop :=
  strip line = [] ∨ head (strip line) = Some hash_sign ∨ equals_sign ∉ strip line.

#[local] Instance skipped_line_dec line : Decision (skipped_line line).
Proof. unfold skipped_line. apply _. Defined.

(** Lines written as a file, a newline after each. *)
Definition unlines (lines : list pystr) : pystr := flat_map (λ l, l ++ nl) lines.

(** ** Responses of the documented shape *)

Definition part_json (text : pystr) : Json := JObj [(lit "text", JStr text)].

Definition candidate_json (parts : list pystr) : Json :=
  JObj [(lit "content", JObj [(lit "parts", JArr (part_json <$> parts))])].

(** The response whose candidates carry the given texts, part by part. *)
Definition response_json (candidates : list (list pystr)) : Json :=
  JObj [(lit "candidates", JArr (candidate_json <$> candidates))].

(** The first text that is not empty, over all candidates in order. *)
Definition first_text (candidates : list (list pystr)) : option pystr :=
  head (filter (λ text : pystr, text ≠ []) (concat candidates)).

Definition no_text : Exn := RuntimeError (lit "Gemini response did not contain text").

(** The failures of the summarization that the log records, with the subject
    each one names. *)
Definition failure_logs (t : list Event) : list (option pystr * Exn) :=
  omap (λ e, match e with
             | EvLog (LogSummarizationFailed subject exc) => Some (subject, exc)
             | _ => None
             end) t.

(** What the clients log when a request fails. *)
Definition gemini_error_log (r : Result (Result Json)) : list Event :=
  match r with
  | Raise (HTTPError code detail) => [EvLog (LogGeminiHTTPError code detail)]
  | Raise (URLError reason) => [EvLog (LogGeminiURLError reason)]
  | _ => []
  end.

Definition discord_error_log (r : Result (Result Json)) : list Event :=
  match r with
  | Raise (HTTPError code detail) => [EvLog (LogDiscordHTTPError code detail)]
  | Raise (URLError reason) => [EvLog (LogDiscordURLError reason)]
  | _ => []
  end.

(** ** The steps of a run *)

(** The command line of the export. *)
Definition export_cmd (env : Env) (lookback max_emails : Z) (p : pystr) : list pystr :=
  [lit "osascript"; SCRIPT_PATH env; str_of_int lookback; str_of_int max_emails; p].

(** The world in which the export process is started: the temporary file
    exists and the start of the export is logged. *)
Definition launching_world (w : World) (lookback max_emails : Z) (p : pystr) : World :=
  (log (LogRunningAppleScript max_emails lookback) (created_tmp w p)).2.

(** The keys [resolve_config] reports as missing. *)
Definition missing_keys (env_values : Config) : list pystr :=
  filter (λ key, config_missing env_values key = true)
         [lit "GEMINI_API_KEY"; lit "DISCORD_WEBHOOK"].


(** Running [m] posts at most one content to the webhook. *)
Definition posts_at_most_one {A} (m : M A) : Prop :=
  ∀ w, ∃ posts, discord_posts (trace (m w).2) = discord_posts (trace w) ++ posts
                ∧ (length posts ≤ 1)%nat.


(** What the run has written to its log so far, oldest first: each
    [logging] call appends one record to the log file. *)
Definition logged (t : list Event) : list LogMsg :=
  omap (λ e, match e with EvLog msg => Some msg | _ => None end) t.

(** Running [m] only adds to what has been done: nothing recorded is taken
    back or rewritten. *)
Definition grows {A} (m : M A) : Prop := ∀ w, trace w `prefix_of` trace (m w).2.

(** ** A concrete environment *)

Definition demo_script : pystr := lit "export_unread.scpt".
Definition demo_tmp : pystr := lit "tmp/mail_export_k3x9.tsv".

Definition alice_row : Row :=
  {[ lit "sender" := lit "Alice"; lit "subject" := lit "Budget";
     lit "received_at" := lit "2024-01-01T10:00"; lit "body" := lit "Need approval" ]}.
Definition bob_row : Row :=
  {[ lit "sender" := lit "Bob"; lit "subject" := lit "Lunch";
     lit "received_at" := lit "2024-01-01T09:00"; lit "body" := lit "Noon?" ]}.
Definition carol_row : Row :=
  {[ lit "sender" := lit "Carol"; lit "subject" := lit "Minutes";
     lit "received_at" := lit "2024-01-01T08:00"; lit "body" := lit "Attached." ]}.

(** The records of an export file, each the list of its cells: the header
    the exporter writes, then one record per email. *)
Definition export_header : list pystr :=
  [lit "sender"; lit "subject"; lit "received_at"; lit "body"].

(** An export whose second email has lost its last two cells. *)
Definition short_export : list (list pystr) :=
  [ export_header;
    [lit "Alice"; lit "Budget"; lit "2024-01-01T10:00"; lit "Need approval"];
    [lit "Bob"; lit "Lunch"] ].

(** An export of three emails, not in order, with a blank line. *)
Definition full_export : list (list pystr) :=
  [ export_header;
    [lit "Carol"; lit "Minutes"; lit "2024-01-01T08:00"; lit "Attached."];
    [lit "Alice"; lit "Budget"; lit "2024-01-01T10:00"; lit "Need approval"];
    [];
    [lit "Bob"; lit "Lunch"; lit "2024-01-01T09:00"; lit "Noon?"] ].

(** An export without the [received_at] column. *)
Definition undated_export : list (list pystr) :=
  [ [lit "sender"; lit "subject"];
    [lit "Alice"; lit "Budget"];
    [lit "Bob"; lit "Lunch"] ].

(** A successful response carrying [text]. *)
Definition gemini_response (text : pystr) : Json :=
  JObj [(lit "candidates",
         JArr [JObj [(lit "content",
                      JObj [(lit "parts", JArr [JObj [(lit "text", JStr text)]])])]])].

(** Decimal digits only. *)
Definition demo_int (s : pystr) : option Z :=
  match s with
  | [] => None
  | _ =>
      foldl (λ acc c, n ← acc;
                      if (48 <=? c) && (c <=? 57)
                      then Some (10 * n + Z.of_N (c - 48))%Z else None)
            (Some 0%Z) s
  end.

(** The export writes [export] to the path it is given; the backend answers
    a prompt by [respond]; the webhook accepts any post. *)
Definition demo_env (export : option (list Row))
    (respond : pystr → Result (Result Json)) : Env :=
  {| SCRIPT_PATH := demo_script;
     mkstemp_name := λ _, Ok demo_tmp;
     osascript := λ w cmd,
       match last cmd, export with
       | Some path, Some rows => Ok (0%Z, <[path := rows]> (fs w))
       | Some path, None => Ok (0%Z, delete path (fs w))
       | None, _ => Ok (2%Z, fs w)
       end;
     urlopen := λ _ req,
       match data req with
       | GeminiPayload prompt => respond prompt
       | DiscordPayload _ => Ok (Ok JNull)
       end;
     now := λ _, lit "2024-01-01 10:00";
     int_of_str := demo_int |}.

Definition demo_world : World := mkWorld {[ demo_script := [] ]} [].

Definition demo_values : Config :=
  {[ lit "GEMINI_API_KEY" := lit "k"; lit "DISCORD_WEBHOOK" := lit "https://hook" ]}.

(** Every summarization succeeds. *)
Definition respond_ok (prompt : pystr) : Result (Result Json) :=
  Ok (Ok (gemini_response (lit " A short summary. "))).

(** Every summarization fails. *)
Definition respond_down (prompt : pystr) : Result (Result Json) :=
  Raise (URLError (lit "timed out")).

(** The summarization of Bob's mail fails, the others succeed. *)
Definition respond_but_bob (prompt : pystr) : Result (Result Json) :=
  if str_eqb prompt (build_prompt bob_row) then Raise (HTTPError 503 (lit "unavailable"))
  else respond_ok prompt.

Definition demo_args (cap : Z) (dry : bool) : Args := mkArgs None (Some cap) dry.

(** The configuration [resolve_config] yields for these arguments. *)
Definition demo_config (cap : Z) (dry : bool) (values : Config) : Config :=
  match resolve_config (demo_args cap dry) values with
  | Ok config => config
  | Raise _ => ∅
  end.

(** The world the export step of the concrete environment leaves. *)
Definition demo_exported (env : Env) (cap : Z) : World :=
  (run_applescript env 60 cap demo_tmp (created_tmp demo_world demo_tmp)).2.

(** The export holds three rows, every summarization succeeds. *)
Definition env_three : Env := demo_env (Some [carol_row; alice_row; bob_row]) respond_ok.
(** The example of the specification: two rows, Bob's first in the file. *)
Definition env_two : Env := demo_env (Some [bob_row; alice_row]) respond_ok.
(** The export step removes the export file. *)
Definition env_absent : Env := demo_env None respond_ok.
(** Rows are exported and the backend is down. *)
Definition env_down : Env := demo_env (Some [bob_row; alice_row]) respond_down.

(** The export process exits with status 1. *)
Definition env_failing : Env :=
  {| SCRIPT_PATH := demo_script;
     mkstemp_name := λ _, Ok demo_tmp;
     osascript := λ w _, Ok (1%Z, fs w);
     urlopen := λ _ _, Ok (Ok JNull);
     now := λ _, lit "2024-01-01 10:00";
     int_of_str := demo_int |}.

(** The summaries are produced and the webhook refuses the digest. *)
Definition env_undelivered : Env :=
  {| SCRIPT_PATH := demo_script;
     mkstemp_name := λ _, Ok demo_tmp;
     osascript := osascript env_two;
     urlopen := λ _ req,
       match data req with
       | GeminiPayload prompt => respond_ok prompt
       | DiscordPayload _ => Raise (HTTPError 500 (lit "server error"))
       end;
     now := λ _, lit "2024-01-01 10:00";
     int_of_str := demo_int |}.

(** Bob's mail with the receipt time of Alice's. *)
Definition bob_at_ten : Row := <[lit "received_at" := lit "2024-01-01T10:00"]> bob_row.

(** Assignments of a [.env] file, the cap being assigned twice. *)
Definition demo_assignments : list (pystr * pystr) :=
  [ (lit "GEMINI_API_KEY", lit "abc=def");
    (lit "MAX_EMAILS", lit "5");
    (lit "MAX_EMAILS", lit "7") ].

(** The lines of a [.env] file, one assignment among them. *)
Definition demo_lines : list pystr :=
  [ lit "# credentials"; []; lit "  MAX_EMAILS = 7  "; lit "no assignment here";
    lit "   # LOOKBACK_MINUTES=5" ].

(** A cap that is not a number, and the configuration it resolves to in
    simulation mode without overrides. *)
Definition bad_values : Config := {[ lit "MAX_EMAILS" := lit "many" ]}.
Definition bad_config : Config :=
  match resolve_config (mkArgs None None true) bad_values with
  | Ok config => config
  | Raise _ => ∅
  end.

(** * Properties *)

(** ** String comparison *)

Lemma str_eqb_eq a b : str_eqb a b = true ↔ a = b.
Proof.
  revert b; induction a as [|x a IH]; intros [|y b]; simpl; try easy.
  rewrite andb_true_iff, N.eqb_eq, IH. split; [intros [-> ->]; done|].
  intros [= -> ->]; done.
Qed.

Lemma str_eqb_refl a : str_eqb a a = true.
Proof. by apply str_eqb_eq. Qed.

Lemma str_ltb_irrefl a : str_ltb a a = false.
Proof.
  induction a as [|x a IH]; simpl; [done|].
  rewrite IH, andb_false_r, orb_false_r. apply N.ltb_irrefl.
Qed.

(** The empty string is the least string. *)
Lemma str_leb_nil s : str_leb [] s = true.
Proof. unfold str_leb. by destruct s. Qed.


Lemma str_leb_refl a : str_leb a a = true.
Proof. unfold str_leb. by rewrite str_ltb_irrefl. Qed.



(** ** The stable descending sort *)

Section SortFacts.
Context {A : Type} (key : A → pystr).






End SortFacts.


(** ** Tabular parser *)







(** ** Prompt builder *)

(** Filling the template: the fields are substituted in place, and what is
    substituted is not scanned again. *)
Lemma format_template (s1 s2 s3 s4 : pystr) :
  format template
    [(lit "sender", s1); (lit "subject", s2); (lit "received_at", s3); (lit "body", s4)]
  = Some (prompt_head s1 s2 s3 ++ s4 ++ nl).
Proof.
  unfold prompt_head, instruction.
  rewrite <- !app_assoc. reflexivity.
Qed.

Lemma build_prompt_eq (row : Row) :
  build_prompt row
  = prompt_head (shown_sender row) (shown_subject row) (dict_get row "received_at" [])
    ++ take 4000 (dict_get row "body" []) ++ nl.
Proof. unfold build_prompt. by rewrite format_template. Qed.

(** C9. The prompt of a row is the fixed head, filled with the sender, the
    subject and the receipt time, followed by the first 4000 characters of
    the body and a newline.  So at most 4000 characters of the body are
    embedded, a body within the cap is embedded whole, the head does not
    depend on the body, and two rows that agree on the three fields and on
    the first 4000 characters of the body have the same prompt. *)
Theorem build_prompt_body_cap (row row' : Row) :
  let body := dict_get row "body" [] in
  build_prompt row
    = prompt_head (shown_sender row) (shown_subject row) (dict_get row "received_at" [])
      ++ take 4000 body ++ nl
  ∧ length (take 4000 body) = (length body `min` 4000)%nat
  ∧ take 4000 body `prefix_of` body
  ∧ ((length body ≤ 4000)%nat → take 4000 body = body)
  ∧ (shown_sender row' = shown_sender row →
     shown_subject row' = shown_subject row →
     dict_get row' "received_at" [] = dict_get row "received_at" [] →
     take 4000 (dict_get row' "body" []) = take 4000 body →
     build_prompt row' = build_prompt row).
Proof.
  intros body. split; [apply build_prompt_eq|].
  split; [by rewrite length_take; lia|].
  split; [apply prefix_take|].
  split; [apply take_ge|].
  intros H1 H2 H3 H4. rewrite !build_prompt_eq. by rewrite H1, H2, H3, H4.
Qed.

(** ** Placeholder defaulting *)

(** C2, counterexample.  A field that is present and empty is shown empty:
    the placeholders stand in for absent keys only. *)
Lemma placeholder_counterexample :
  blank_sender_row !! lit "sender" = Some []
  ∧ shown_sender blank_sender_row = []
  ∧ shown_subject blank_sender_row = []
  ∧ sender (summary_of blank_sender_row (lit "text")) = []
  ∧ subject (summary_of blank_sender_row (lit "text")) = []
  ∧ build_prompt blank_sender_row
    = prompt_head [] [] (lit "2024-01-01T10:00") ++ lit "Need approval" ++ nl
  ∧ ¬ placeholder_claim blank_sender_row.
Proof.
  repeat split; try by vm_compute.
  intros [H _]. by apply H.
Qed.

(** C2, amended.  In the prompt and in the summary record alike, the
    sender of a row without a [sender] key is ["Unknown"] and the subject
    of a row without a [subject] key is ["(no subject)"]; a field that is
    present is shown as it is.  So what is shown is empty exactly when the
    field is present and empty. *)
Theorem placeholder_defaulting (row : Row) (summary_text : pystr) :
  sender (summary_of row summary_text) = shown_sender row
  ∧ subject (summary_of row summary_text) = shown_subject row
  ∧ build_prompt row
    = prompt_head (shown_sender row) (shown_subject row) (dict_get row "received_at" [])
      ++ take 4000 (dict_get row "body" []) ++ nl
  ∧ shown_sender row
    = match row !! lit "sender" with Some s => s | None => lit "Unknown" end
  ∧ shown_subject row
    = match row !! lit "subject" with Some s => s | None => lit "(no subject)" end
  ∧ (shown_sender row = [] ↔ row !! lit "sender" = Some [])
  ∧ (shown_subject row = [] ↔ row !! lit "subject" = Some []).
Proof.
  split; [done|]. split; [done|]. split; [apply build_prompt_eq|].
  unfold shown_sender, shown_subject, dict_get.
  destruct (row !! lit "sender") as [s|], (row !! lit "subject") as [s'|]; simpl;
    repeat split; try done; try congruence; by intros [= ->].
Qed.

(** ** Digest formatter *)

Lemma foldl_append_entry (lines : list pystr) (summaries : list Summary) :
  foldl append_entry lines summaries = lines ++ flat_map entry_lines summaries.
Proof.
  revert lines; induction summaries as [|e ss IH]; intros lines; simpl.
  - by rewrite app_nil_r.
  - rewrite IH. unfold append_entry. by rewrite <- !app_assoc.
Qed.

Lemma drop_trailing_divider_snoc (lines : list pystr) :
  drop_trailing_divider (lines ++ [divider]) = lines.
Proof.
  unfold drop_trailing_divider. rewrite last_snoc, str_eqb_refl.
  apply removelast_last.
Qed.

Lemma format_discord_payload_snoc timestamp init e_last :
  format_discord_payload timestamp (init ++ [e_last])
  = take 1900 (join nl (digest_lines timestamp init e_last)).
Proof.
  unfold format_discord_payload, digest_lines. rewrite foldl_append_entry.
  rewrite flat_map_app.
  change (flat_map entry_lines [e_last])
    with ([entry_header e_last; strip (summary e_last)] ++ [divider]).
  rewrite !app_assoc, drop_trailing_divider_snoc, <- app_assoc. reflexivity.
Qed.



(** ** Simulation mode: the synthetic summaries *)



Section ProgramFacts.
Context (env : Env).




(** ** How the computations compose *)

Lemma keeps_ret {X A} (obs : list Event → X) (a : A) : keeps obs (ret a).
Proof. by intros w. Qed.

Lemma keeps_raise {X A} (obs : list Event → X) e : keeps obs (@raise A e).
Proof. by intros w. Qed.

Lemma keeps_lift {X A} (obs : list Event → X) (r : Result A) : keeps obs (lift r).
Proof. by intros w. Qed.

Lemma keeps_bind {X A B} (obs : list Event → X) (m : M A) (k : A → M B) :
  keeps obs m → (∀ a, keeps obs (k a)) → keeps obs (bind m k).
Proof.
  intros Hm Hk w. unfold bind. specialize (Hm w).
  destruct (m w) as [[a|e] w']; simpl in *; [|done].
  by rewrite Hk.
Qed.

Lemma keeps_try_except {X A} (obs : list Event → X) (m : M A) (h : Exn → M A) :
  keeps obs m → (∀ e, keeps obs (h e)) → keeps obs (try_except m h).
Proof.
  intros Hm Hh w. unfold try_except. specialize (Hm w).
  destruct (m w) as [[a|e] w']; simpl in *; [done|].
  by rewrite Hh.
Qed.


Lemma keeps_emit {X} (obs : list Event → X) e : ignores obs e → keeps obs (emit e).
Proof. intros He w. apply He. Qed.

Lemma keeps_path_exists {X} (obs : list Event → X) path : keeps obs (path_exists path).
Proof. by intros w. Qed.

Lemma keeps_unlink {X} (obs : list Event → X) path :
  keeps obs (unlink_missing_ok path).
Proof. by intros w. Qed.

Lemma keeps_for_each {X A} (obs : list Event → X) (xs : list A) (body : A → M unit) :
  (∀ x, keeps obs (body x)) → keeps obs (for_each xs body).
Proof.
  intros Hb. induction xs as [|x xs IH]; simpl.
  - apply keeps_ret.
  - apply keeps_bind; [apply Hb|]. by intros [].
Qed.

Lemma keeps_http_post {X} (obs : list Event → X) req :
  ignores obs (EvHttp req) → keeps obs (http_post env req).
Proof. intros He w. apply He. Qed.

Lemma keeps_config_item {X} (obs : list Event → X) config key :
  keeps obs (config_item config key).
Proof. unfold config_item. destruct (config !! key); [apply keeps_ret|apply keeps_raise]. Qed.

Lemma keeps_config_int {X} (obs : list Event → X) config key :
  keeps obs (config_int env config key).
Proof.
  apply keeps_bind; [apply keeps_config_item|]. intros v.
  destruct (int_of_str env v); [apply keeps_ret|apply keeps_raise].
Qed.

Lemma keeps_mkstemp {X} (obs : list Event → X) : keeps obs (mkstemp env).
Proof. intros w. unfold mkstemp. by destruct (mkstemp_name env w). Qed.

(** What reads only the network traffic is blind to the log, to the export
    process and to the file system. *)
Section Offline.
Context {X : Type} (obs : list Event → X) (Hoff : offline obs).

Lemma keeps_log msg : keeps obs (log msg).
Proof. apply keeps_emit, Hoff. Qed.

Lemma keeps_subprocess_run_check cmd : keeps obs (subprocess_run_check env cmd).
Proof.
  intros w. unfold subprocess_run_check.
  destruct (osascript env w cmd) as [[rc fs']|e]; simpl; apply Hoff.
Qed.

Lemma keeps_run_applescript lookback max_emails export_path :
  keeps obs (run_applescript env lookback max_emails export_path).
Proof.
  apply keeps_bind; [apply keeps_path_exists|]. intros [|]; simpl.
  - apply keeps_bind; [apply keeps_log|]. intros _. apply keeps_subprocess_run_check.
  - apply keeps_raise.
Qed.

Lemma keeps_parse_tsv tsv_path : keeps obs (parse_tsv tsv_path).
Proof.
  intros w. unfold parse_tsv. destruct (fs w !! tsv_path); [done|].
  apply (keeps_bind obs (log _) (λ _, ret [])); [apply keeps_log|].
  intros _. apply keeps_ret.
Qed.


(** The requests of the summarization client are the only ones of
    [summarize_emails]. *)
Lemma keeps_gemini_request api_key model prompt :
  (∀ u p, ignores obs (EvHttp (mkRequest u (GeminiPayload p)))) →
  keeps obs (gemini_request env api_key model prompt).
Proof.
  intros Hg. apply keeps_bind.
  - apply keeps_try_except; [by apply keeps_http_post|].
    intros []; try apply keeps_raise;
      (apply keeps_bind; [apply keeps_log|intros _; apply keeps_raise]).
  - intros [j|]; [apply keeps_lift|apply keeps_raise].
Qed.

Lemma keeps_summarize_loop api_key model dry_run rows summaries :
  (∀ u p, ignores obs (EvHttp (mkRequest u (GeminiPayload p)))) →
  keeps obs (summarize_loop env api_key model dry_run rows summaries).
Proof.
  intros Hg. revert summaries. induction rows as [|row rows IH]; intros summaries.
  - apply keeps_ret.
  - cbn [summarize_loop]. apply keeps_bind.
    + unfold summary_text_of. destruct dry_run.
      * destruct (head _); [apply keeps_ret|apply keeps_raise].
      * apply keeps_try_except.
        -- apply keeps_bind; [by apply keeps_gemini_request|].
           intros t. apply keeps_ret.
        -- intros e. apply keeps_bind; [apply keeps_log|]. intros _. apply keeps_ret.
    + intros [t|]; apply IH.
Qed.

Lemma keeps_summarize_emails rows config dry_run :
  (∀ u p, ignores obs (EvHttp (mkRequest u (GeminiPayload p)))) →
  keeps obs (summarize_emails env rows config dry_run).
Proof. intros Hg. by apply keeps_summarize_loop. Qed.


Lemma keeps_conclude_dry_run config summaries :
  keeps obs (conclude env config true summaries).
Proof.
  unfold conclude. destruct summaries as [|s ss].
  - apply keeps_bind; [apply keeps_log|]. intros _. apply keeps_ret.
  - apply keeps_bind; [|intros _; apply keeps_ret].
    apply keeps_for_each. intros x. apply keeps_log.
Qed.





End Offline.

(** ** The three observations *)

Lemma http_requests_app t1 t2 :
  http_requests (t1 ++ t2) = http_requests t1 ++ http_requests t2.
Proof. apply omap_app. Qed.

Lemma gemini_prompts_app t1 t2 :
  gemini_prompts (t1 ++ t2) = gemini_prompts t1 ++ gemini_prompts t2.
Proof. unfold gemini_prompts. by rewrite http_requests_app, omap_app. Qed.

Lemma discord_posts_app t1 t2 :
  discord_posts (t1 ++ t2) = discord_posts t1 ++ discord_posts t2.
Proof. unfold discord_posts. by rewrite http_requests_app, omap_app. Qed.

Lemma offline_http_requests : offline http_requests.
Proof. split; intros x t; rewrite http_requests_app; apply app_nil_r. Qed.

Lemma offline_gemini_prompts : offline gemini_prompts.
Proof. split; intros x t; rewrite gemini_prompts_app; apply app_nil_r. Qed.

Lemma offline_discord_posts : offline discord_posts.
Proof. split; intros x t; rewrite discord_posts_app; apply app_nil_r. Qed.


Lemma discord_posts_ignores_gemini u p :
  ignores discord_posts (EvHttp (mkRequest u (GeminiPayload p))).
Proof. intros t. rewrite discord_posts_app. apply app_nil_r. Qed.

(** ** Summarization against the backend *)

(** Outside simulation mode the body of the loop never raises: it yields
    the text of a request that succeeded and [None], after a log entry, for
    one that failed. *)
Lemma summary_text_of_live api_key model row prompt w :
  summary_text_of env api_key model false row prompt w
  = match (gemini_request env api_key model prompt w).1 with
    | Ok text => (Ok (Some text), (gemini_request env api_key model prompt w).2)
    | Raise exc =>
        (Ok None,
         (log (LogSummarizationFailed (row !! lit "subject") exc)
              (gemini_request env api_key model prompt w).2).2)
    end.
Proof.
  unfold summary_text_of, try_except, bind at 1.
  by destruct (gemini_request env api_key model prompt w) as [[text|exc] w'].
Qed.

Lemma summarize_loop_live api_key model rows summaries w :
  summarize_loop env api_key model false rows summaries w
  = (Ok (summaries ++ successes (attempts env api_key model rows w).1),
     (attempts env api_key model rows w).2).
Proof.
  revert summaries w; induction rows as [|row rows IH]; intros summaries w.
  - simpl. by rewrite app_nil_r.
  - cbn [summarize_loop attempts]. unfold bind at 1.
    rewrite summary_text_of_live.
    destruct (gemini_request env api_key model (build_prompt row) w) as [[text|exc] w'];
      cbn [fst snd]; rewrite IH; [|done].
    unfold successes. cbn [omap fst snd]. by rewrite <- app_assoc.
Qed.

Lemma attempts_rows api_key model rows w :
  (attempts env api_key model rows w).1.*1 = rows.
Proof.
  revert w; induction rows as [|row rows IH]; intros w; [done|].
  cbn [attempts fst snd fmap list_fmap]. simpl. f_equal. apply IH.
Qed.

Lemma gemini_request_prompt api_key model prompt w :
  gemini_prompts (trace (gemini_request env api_key model prompt w).2)
  = gemini_prompts (trace w) ++ [prompt].
Proof.
  unfold gemini_request, bind, try_except, http_post.
  destruct (urlopen env w _) as [[j|bad]|[]]; cbn [trace snd fst];
    try (unfold lift; destruct (extract_text j));
    cbn [trace snd fst raise log emit];
    rewrite ?(proj1 offline_gemini_prompts _ _); by rewrite gemini_prompts_app.
Qed.

(** Every row is tried, in order, with its own prompt. *)
Lemma attempts_prompts api_key model rows w :
  gemini_prompts (trace (attempts env api_key model rows w).2)
  = gemini_prompts (trace w) ++ (build_prompt <$> rows).
Proof.
  revert w; induction rows as [|row rows IH]; intros w.
  - simpl. by rewrite app_nil_r.
  - cbn [attempts fst snd]. rewrite IH.
    pose proof (gemini_request_prompt api_key model (build_prompt row) w) as Hp.
    destruct (gemini_request env api_key model (build_prompt row) w) as [[text|exc] w'];
      cbn [fst snd log emit trace] in *;
      rewrite ?(proj1 offline_gemini_prompts _ _), Hp, <- app_assoc; done.
Qed.

Lemma successes_length (att : list (Row * Result pystr)) :
  length (successes att) = length (filter (λ a, is_ok a.2 = true) att).
Proof.
  induction att as [|[row [text|exc]] l IH]; [done|..].
  - rewrite filter_cons_True by done.
    change (successes ((row, Ok text) :: l)) with (summary_of row text :: successes l).
    simpl. by rewrite IH.
  - rewrite filter_cons_False by done.
    change (successes ((row, Raise exc) :: l)) with (successes l). done.
Qed.

Lemma summarize_emails_live (rows : list Row) (config : Config) (w : World) :
  summarize_emails env rows config false w
  = (Ok (successes
           (attempts env (default [] (config !! lit "GEMINI_API_KEY"))
              (default (lit "gemini-1.5-flash") (config !! lit "GEMINI_MODEL")) rows w).1),
     (attempts env (default [] (config !! lit "GEMINI_API_KEY"))
        (default (lit "gemini-1.5-flash") (config !! lit "GEMINI_MODEL")) rows w).2).
Proof. unfold summarize_emails. by rewrite summarize_loop_live. Qed.

(** C1. Outside simulation mode [summarize_emails] returns, whatever the
    backend answers: every row is attempted once, in order, and the result
    holds one summary record for each attempt that succeeded, in the order
    of the rows; the rows whose attempt raised are left out. *)
Theorem summarize_emails_partial_failure (rows : list Row) (config : Config) (w : World) :
  let api_key := default [] (config !! lit "GEMINI_API_KEY") in
  let model := default (lit "gemini-1.5-flash") (config !! lit "GEMINI_MODEL") in
  let att := attempts env api_key model rows w in
  summarize_emails env rows config false w = (Ok (successes att.1), att.2)
  ∧ att.1.*1 = rows
  ∧ length (successes att.1) = length (filter (λ a, is_ok a.2 = true) att.1)
  ∧ gemini_prompts (trace att.2) = gemini_prompts (trace w) ++ (build_prompt <$> rows).
Proof.
  intros api_key model att. split; [|split; [|split]].
  - apply summarize_emails_live.
  - apply attempts_rows.
  - apply successes_length.
  - apply attempts_prompts.
Qed.

(** ** The orchestrator *)

Lemma main_starts args env_values w config lookback max_emails p :
  starts env args env_values w config lookback max_emails p →
  main env args env_values w
  = try_finally (main_body env config (dry_run args) lookback max_emails p)
                (unlink_missing_ok p) (created_tmp w p).
Proof.
  intros (Hc & Hlb & Hmx & Hp).
  apply bind_Some in Hlb as (v1 & Hv1 & Hi1).
  apply bind_Some in Hmx as (v2 & Hv2 & Hi2).
  unfold main, bind, lift, config_int, config_item, bind, mkstemp.
  rewrite Hc, Hv1. unfold ret at 1. rewrite Hi1. unfold ret at 1.
  rewrite Hv2. unfold ret at 1. rewrite Hi2. unfold ret at 1.
  by rewrite Hp.
Qed.

Lemma main_exports args env_values w config lookback max_emails p w1 :
  starts env args env_values w config lookback max_emails p →
  exports env w lookback max_emails p w1 →
  main env args env_values w
  = try_finally (process_export env config (dry_run args) max_emails p)
                (unlink_missing_ok p) w1.
Proof.
  intros Hs He. rewrite (main_starts _ _ _ _ _ _ _ Hs).
  unfold try_finally, main_body, bind at 1. unfold exports in He. by rewrite He.
Qed.

(** The export step leaves the network alone. *)
Lemma exports_keeps {X} (obs : list Event → X) w lookback max_emails p w1 :
  offline obs → exports env w lookback max_emails p w1 →
  obs (trace w1) = obs (trace w).
Proof.
  intros Hoff He.
  pose proof (keeps_run_applescript obs Hoff lookback max_emails p (created_tmp w p)) as H.
  unfold exports in He. by rewrite He in H.
Qed.

Lemma try_finally_unlink {A} (m : M A) p w :
  try_finally m (unlink_missing_ok p) w
  = ((m w).1, mkWorld (delete p (fs (m w).2)) (trace (m w).2)).
Proof. unfold try_finally. by destruct (m w). Qed.

Lemma script_of_main args env_values w code w' :
  main env args env_values w = (Ok code, w') →
  script env args env_values w = (exit_status code, w').
Proof. intros H. unfold script. by rewrite H. Qed.

Lemma script_of_main_zero args env_values w w' :
  main env args env_values w = (Ok 0%Z, w') →
  script env args env_values w = (0%Z, w').
Proof. apply script_of_main. Qed.

Lemma script_fs args env_values w :
  fs (script env args env_values w).2 = fs (main env args env_values w).2.
Proof.
  unfold script. destruct (main env args env_values w) as [[code|e] w']; [done|].
  by destruct e.
Qed.

Lemma process_export_eq config dry_run max_emails p w1 :
  process_export env config dry_run max_emails p w1
  = match parse_rows (default [] (fs w1 !! p)) with
    | [] => (Ok 0%Z, (log LogNoUnreadEmails (parse_tsv p w1).2).2)
    | emails =>
        (let* summaries :=
           summarize_emails env (slice_to max_emails emails) config dry_run in
         conclude env config dry_run summaries) (summarizing_world w1 emails)
    end.
Proof.
  unfold process_export, bind at 1, parse_tsv.
  destruct (fs w1 !! p) as [reader|] eqn:Hp; simpl; [|done].
  destruct (parse_rows reader) as [|r rs]; [done|]. done.
Qed.

(** C6. Once the temporary export file [p] is made, it is gone when [main]
    is over, whatever the export, the backend and the webhook do and
    whether [main] returns or raises; the removal does not change the
    outcome of the [try] block, and it also goes through in a world where
    the file is no longer there. *)
Theorem tmp_export_removed args env_values w config lookback max_emails p :
  starts env args env_values w config lookback max_emails p →
  fs (main env args env_values w).2 !! p = None
  ∧ fs (script env args env_values w).2 !! p = None
  ∧ (main env args env_values w).1
    = (main_body env config (dry_run args) lookback max_emails p (created_tmp w p)).1
  ∧ (∀ w0, fs w0 !! p = None → unlink_missing_ok p w0 = (Ok tt, w0)).
Proof.
  intros Hs. rewrite script_fs, (main_starts _ _ _ _ _ _ _ Hs), try_finally_unlink.
  cbn [fst snd fs]. rewrite lookup_delete_eq. repeat split.
  intros [fs0 t0] H0. unfold unlink_missing_ok. cbn [fs trace] in *.
  by rewrite delete_id.
Qed.





(** C8. When the export step has returned and the parser yields no row,
    which is the case when the export file does not exist, the run ends
    with exit status 0 and has sent nothing to the network; for a file that
    does not exist all it does after the export is to log twice.  When rows
    were parsed but the summarization yields no summary, the run ends with
    exit status 0 and nothing was posted to the webhook. *)
Theorem empty_short_circuit args env_values w config lookback max_emails p w1 :
  starts env args env_values w config lookback max_emails p →
  exports env w lookback max_emails p w1 →
  let emails := parse_rows (default [] (fs w1 !! p)) in
  (fs w1 !! p = None →
     emails = []
     ∧ ∃ w', script env args env_values w = (0%Z, w')
         ∧ trace w' = trace w1 ++ [EvLog (LogNoTsvExport p); EvLog LogNoUnreadEmails])
  ∧ (emails = [] →
       ∃ w', script env args env_values w = (0%Z, w')
         ∧ http_requests (trace w') = http_requests (trace w))
  ∧ (emails ≠ [] →
     (summarize_emails env (slice_to max_emails emails) config (dry_run args)
        (summarizing_world w1 emails)).1 = Ok [] →
       ∃ w', script env args env_values w = (0%Z, w')
         ∧ discord_posts (trace w') = discord_posts (trace w)).
Proof.
  intros Hs He. cbv zeta.
  pose proof (main_exports _ _ _ _ _ _ _ _ Hs He) as Hmain.
  rewrite try_finally_unlink, process_export_eq in Hmain.
  split.
  { intros Hnone. unfold parse_tsv in Hmain. rewrite Hnone in Hmain |- *.
    split; [done|]. eexists. split; [apply script_of_main_zero, Hmain|].
    cbn. by rewrite <- app_assoc. }
  destruct (parse_rows (default [] (fs w1 !! p))) as [|r rs].
  - split; [|done]. intros _. eexists. split; [apply script_of_main_zero, Hmain|].
    cbn [trace fst snd]. rewrite (keeps_log _ offline_http_requests).
    rewrite (keeps_parse_tsv _ offline_http_requests).
    exact (exports_keeps http_requests _ _ _ _ _ offline_http_requests He).
  - split; [done|]. intros _ Hsum.
    pose proof (keeps_summarize_emails discord_posts offline_discord_posts
      (slice_to max_emails (r :: rs)) config (dry_run args) discord_posts_ignores_gemini
      (summarizing_world w1 (r :: rs))) as Hk.
    unfold bind in Hmain.
    destruct (summarize_emails env (slice_to max_emails (r :: rs)) config (dry_run args)
                (summarizing_world w1 (r :: rs))) as [res w2].
    cbn [fst snd] in Hsum, Hk. subst res.
    eexists. split; [apply script_of_main_zero, Hmain|].
    cbn [trace fst snd conclude]. unfold bind, log, emit, ret. cbn [trace fst snd].
    rewrite (proj1 offline_discord_posts), Hk.
    unfold summarizing_world. rewrite (keeps_log _ offline_discord_posts).
    exact (exports_keeps discord_posts _ _ _ _ _ offline_discord_posts He).
Qed.

Lemma script_offline {X} (obs : list Event → X) args env_values w :
  offline obs →
  obs (trace (script env args env_values w).2) = obs (trace (main env args env_values w).2).
Proof.
  intros Hoff. unfold script.
  destruct (main env args env_values w) as [[code|e] w']; [done|].
  destruct e; cbn [snd trace]; try done; apply Hoff.
Qed.



End ProgramFacts.

(** ** The properties on concrete runs *)

Lemma demo_starts export respond cap dry :
  (cap = 2 ∨ cap = 5)%Z →
  starts (demo_env export respond) (demo_args cap dry) demo_values demo_world
         (demo_config cap dry demo_values) 60 cap demo_tmp.
Proof. intros [-> | ->]; destruct dry; repeat split; by vm_compute. Qed.


Lemma demo_exports export respond cap :
  exports (demo_env export respond) demo_world 60 cap demo_tmp
          (demo_exported (demo_env export respond) cap).
Proof. unfold exports, demo_exported. by destruct export. Qed.


(** The temporary file is gone after a run that delivers a digest. *)
Lemma tmp_export_removed_witness :
  fs (script env_three (demo_args 2 false) demo_values demo_world).2 !! demo_tmp = None.
Proof.
  apply (tmp_export_removed env_three (demo_args 2 false) demo_values demo_world
           (demo_config 2 false demo_values) 60 2 demo_tmp).
  apply demo_starts. by left.
Defined.


(** The export file does not exist after the export step: status 0 and no
    request at all.  Rows are exported but every summarization fails:
    status 0 and nothing posted. *)
Lemma empty_short_circuit_witness :
  fs (demo_exported env_absent 2) !! demo_tmp = None
  ∧ (∃ w', script env_absent (demo_args 2 false) demo_values demo_world = (0%Z, w')
       ∧ trace w' = trace (demo_exported env_absent 2)
                    ++ [EvLog (LogNoTsvExport demo_tmp); EvLog LogNoUnreadEmails])
  ∧ (∃ w', script env_absent (demo_args 2 false) demo_values demo_world = (0%Z, w')
       ∧ http_requests (trace w') = [])
  ∧ (∃ w', script env_down (demo_args 2 false) demo_values demo_world = (0%Z, w')
       ∧ discord_posts (trace w') = []).
Proof.
  split; [by vm_compute|].
  destruct (empty_short_circuit env_absent (demo_args 2 false) demo_values demo_world
              (demo_config 2 false demo_values) 60 2 demo_tmp
              (demo_exported env_absent 2))
    as (Habsent & Hempty & _); [apply demo_starts; by left|apply demo_exports|].
  destruct (empty_short_circuit env_down (demo_args 2 false) demo_values demo_world
              (demo_config 2 false demo_values) 60 2 demo_tmp
              (demo_exported env_down 2))
    as (_ & _ & Hnone); [apply demo_starts; by left|apply demo_exports|].
  split; [|split].
  - apply Habsent. by vm_compute.
  - apply Hempty. by vm_compute.
  - apply Hnone; by vm_compute.
Defined.

(** The summarization of the second of three rows fails: the summaries are
    those of the first and the third, in that order. *)
Example summarize_emails_second_of_three_fails :
  (summarize_emails (demo_env None respond_but_bob)
     [alice_row; bob_row; carol_row] demo_values false demo_world).1
  = Ok [ summary_of alice_row (lit "A short summary.");
         summary_of carol_row (lit "A short summary.") ].
Proof. by vm_compute. Qed.

(** Rows of equal receipt time keep the order of the file, on either side
    of the sort. *)
Example parse_rows_ties :
  parse_rows [carol_row; bob_at_ten; ∅; alice_row] = [bob_at_ten; alice_row; carol_row]
  ∧ parse_rows [alice_row; carol_row; bob_at_ten] = [alice_row; bob_at_ten; carol_row].
Proof. by vm_compute. Qed.

(** A negative cap is a slice bound counted from the end. *)
Example slice_to_negative_cap :
  slice_to (-1) [alice_row; bob_row; carol_row] = [alice_row; bob_row].
Proof. by vm_compute. Qed.

(** A failing export ends the run with the status of the export process,
    in simulation mode too; the temporary file is removed all the same. *)
Example export_failure_status :
  (script env_failing (demo_args 5 true) ∅ demo_world).1 = 1%Z
  ∧ fs (script env_failing (demo_args 5 true) ∅ demo_world).2 !! demo_tmp = None
  ∧ http_requests (trace (script env_failing (demo_args 5 true) ∅ demo_world).2) = [].
Proof. by vm_compute. Qed.

(** Without the credentials a run outside simulation mode stops before the
    temporary file is made. *)
Example missing_credentials_status :
  script env_three (demo_args 2 false) ∅ demo_world
  = (1%Z, mkWorld (fs demo_world)
            [EvLog (LogConfigError [lit "GEMINI_API_KEY"; lit "DISCORD_WEBHOOK"])]).
Proof. by vm_compute. Qed.

(** The delivered digest of the three-row run with a cap of two. *)
Example delivered_digest :
  discord_posts (trace (script env_three (demo_args 2 false) demo_values demo_world).2)
  = [ lit "**UTD Mail Digest - 2024-01-01 10:00**" ++ nl
      ++ lit "**Alice " ++ [em_dash] ++ lit " Budget**" ++ nl
      ++ lit "A short summary." ++ nl ++ divider ++ nl
      ++ lit "**Bob " ++ [em_dash] ++ lit " Lunch**" ++ nl
      ++ lit "A short summary." ].
Proof. by vm_compute. Qed.

(** A delivery failure is not handled: [main] raises the error of the
    webhook after logging it, the status is 1, and the temporary file is
    removed. *)
Example delivery_failure_status :
  (main env_undelivered (demo_args 2 false) demo_values demo_world).1
  = Raise (HTTPError 500 (lit "server error"))
  ∧ (script env_undelivered (demo_args 2 false) demo_values demo_world).1 = 1%Z
  ∧ fs (script env_undelivered (demo_args 2 false) demo_values demo_world).2 !! demo_tmp = None
  ∧ last (trace (script env_undelivered (demo_args 2 false) demo_values demo_world).2)
    = Some (EvLog (LogDiscordHTTPError 500 (lit "server error"))).
Proof. by vm_compute. Qed.

(** * Further properties of the code *)

(** ** Trimming and splitting into lines *)

Lemma lstrip_headspace s : headspace (lstrip s) = false.
Proof.
  induction s as [|c s IH]; [done|]. simpl.
  destruct (isspace c) eqn:Hc; [done|]. simpl. by rewrite Hc.
Qed.

Lemma lstrip_fixed s : headspace s = false → lstrip s = s.
Proof. destruct s as [|c s]; [done|]. simpl. by intros ->. Qed.

Lemma lstrip_snoc s c : isspace c = false → lstrip (s ++ [c]) = lstrip s ++ [c].
Proof.
  intros Hc. induction s as [|d s IH]; simpl; [by rewrite Hc|].
  by destruct (isspace d).
Qed.

Lemma rstrip_cons c s : isspace c = false → rstrip (c :: s) = c :: rstrip s.
Proof.
  intros Hc. unfold rstrip. simpl. rewrite lstrip_snoc by done.
  by rewrite rev_app_distr.
Qed.

Lemma rstrip_fixed s : headspace (rev s) = false → rstrip s = s.
Proof. intros H. unfold rstrip. rewrite lstrip_fixed by done. apply rev_involutive. Qed.

Lemma rstrip_headspace s : headspace s = false → headspace (rstrip s) = false.
Proof.
  destruct s as [|c s]; [done|]. cbn [headspace]. intros Hc.
  by rewrite rstrip_cons.
Qed.

Lemma strip_headspace s :
  headspace (strip s) = false ∧ headspace (rev (strip s)) = false.
Proof.
  unfold strip. split.
  - apply rstrip_headspace, lstrip_headspace.
  - unfold rstrip. rewrite rev_involutive. apply lstrip_headspace.
Qed.

Lemma strip_fixed s :
  strip s = s ↔ headspace s = false ∧ headspace (rev s) = false.
Proof.
  split.
  - intros <-. apply strip_headspace.
  - intros [H1 H2]. unfold strip. rewrite lstrip_fixed by done. by apply rstrip_fixed.
Qed.

Lemma strip_idemp s : strip (strip s) = strip s.
Proof. apply strip_fixed, strip_headspace. Qed.

Lemma lstrip_elem_of (c : N) s : c ∈ lstrip s → c ∈ s.
Proof.
  induction s as [|d s IH]; [done|]. simpl.
  destruct (isspace d); [|done]. intros H. right. by apply IH.
Qed.

Lemma elem_of_rev (c : N) s : c ∈ rev s ↔ c ∈ s.
Proof. rewrite !list_elem_of_In. symmetry. apply in_rev. Qed.

Lemma strip_elem_of (c : N) s : c ∈ strip s → c ∈ s.
Proof.
  unfold strip, rstrip. intros H. apply lstrip_elem_of.
  apply (proj1 (elem_of_rev _ _)) in H. apply lstrip_elem_of in H.
  by apply (proj1 (elem_of_rev _ _)) in H.
Qed.

(** A text that begins with a line and its newline splits into that line
    and the lines of the rest. *)
Lemma splitlines_aux_line (cur l rest : pystr) :
  no_linebreak l = true →
  splitlines_aux cur (l ++ LF :: rest) = (cur ++ l) :: splitlines_aux [] rest.
Proof.
  revert cur. induction l as [|c l IH]; intros cur Hl.
  - rewrite app_nil_r. simpl. by destruct rest.
  - simpl in Hl. apply andb_true_iff in Hl as [Hc Hl].
    apply negb_true_iff in Hc. simpl. rewrite Hc, IH by done.
    by rewrite <- app_assoc.
Qed.

(** ** Loading the [.env] file *)

Lemma split_first_app (sep : N) (k v : pystr) :
  sep ∉ k → split_first sep (k ++ sep :: v) = Some (k, v).
Proof.
  induction k as [|c k IH]; intros Hk; simpl.
  - by rewrite N.eqb_refl.
  - apply not_elem_of_cons in Hk as [Hc Hk].
    destruct (N.eqb_spec c sep) as [->|_]; [done|]. by rewrite IH.
Qed.

Lemma split_first_Some (sep : N) (s before after : pystr) :
  split_first sep s = Some (before, after) →
  s = before ++ sep :: after ∧ sep ∉ before.
Proof.
  revert before. induction s as [|c s IH]; intros before; simpl; [done|].
  destruct (N.eqb_spec c sep) as [->|Hne].
  - intros [= <- <-]. split; [done|]. apply not_elem_of_nil.
  - destruct (split_first sep s) as [[b a]|]; [|done].
    intros [= <- <-]. destruct (IH b eq_refl) as [-> Hb].
    split; [done|]. apply not_elem_of_cons. by split; [congruence|].
Qed.

Lemma no_linebreak_env_line k v :
  no_linebreak k = true → no_linebreak v = true → no_linebreak (env_line (k, v)) = true.
Proof.
  intros Hk Hv. unfold no_linebreak, env_line in *. simpl.
  rewrite forallb_app. simpl. by rewrite Hk, Hv.
Qed.

Lemma splitlines_render_env (kvs : list (pystr * pystr)) :
  Forall (λ kv, no_linebreak (env_line kv) = true) kvs →
  splitlines (render_env kvs) = env_line <$> kvs.
Proof.
  unfold splitlines. induction 1 as [|kv kvs Hkv _ IH]; [done|].
  cbn [render_env flat_map]. unfold nl. rewrite <- app_assoc.
  change ([LF] ++ ?x) with (LF :: x).
  rewrite splitlines_aux_line by done. cbn [fmap list_fmap]. f_equal. exact IH.
Qed.

(** A plain assignment is read as it is written. *)
Lemma load_env_line_plain (values : Config) (k v : pystr) :
  plain_key k → plain_value v →
  load_env_line values (env_line (k, v)) = <[k := v]> values.
Proof.
  intros (Hk & _ & Heq & Hhash) (Hv & _).
  apply strip_fixed in Hk as Hk', Hv as Hv'.
  destruct Hk' as [Hk1 Hk2], Hv' as [Hv1 Hv2].
  assert (strip (env_line (k, v)) = env_line (k, v)) as Hline.
  { apply strip_fixed. unfold env_line. cbn [fst snd]. split.
    - by destruct k.
    - rewrite rev_app_distr. simpl. rewrite <- app_assoc.
      destruct (rev v) eqn:Hr; [done|]. done. }
  unfold load_env_line. rewrite Hline.
  unfold env_line at 1. cbn [fst snd].
  destruct k as [|c k'] eqn:Hk0.
  - cbn [app]. unfold env_line. cbn [fst snd app].
    change (equals_sign =? hash_sign) with false. cbn [split_first].
    rewrite N.eqb_refl. by rewrite Hv.
  - cbn [app]. destruct (N.eqb_spec c hash_sign) as [->|_]; [done|].
    unfold env_line. cbn [fst snd]. rewrite split_first_app by done.
    by rewrite Hk, Hv.
Qed.

Lemma foldl_load_env_line (values : Config) (kvs : list (pystr * pystr)) :
  Forall (λ kv, plain_key kv.1 ∧ plain_value kv.2) kvs →
  foldl load_env_line values (env_line <$> kvs)
  = foldl (λ m kv, <[kv.1 := kv.2]> m) values kvs.
Proof.
  intros H. revert values. induction H as [|[k v] kvs [Hk Hv] _ IH]; intros values; [done|].
  cbn [fmap list_fmap foldl]. rewrite load_env_line_plain by done. apply IH.
Qed.

Lemma foldl_insert_list_to_map (kvs : list (pystr * pystr)) :
  foldl (λ (m : Config) kv, <[kv.1 := kv.2]> m) ∅ kvs = list_to_map (rev kvs).
Proof.
  rewrite <- (rev_involutive kvs) at 1. generalize (rev kvs). intros l.
  induction l as [|[k v] l IH]; [done|].
  simpl. rewrite foldl_app. simpl. by rewrite IH.
Qed.

(** X1. A file of plain assignments, one per line, is loaded as the map of
    these assignments, the last assignment to a key being the one that
    counts; values may contain ["="]. *)
Theorem load_env_round_trip (kvs : list (pystr * pystr)) :
  Forall (λ kv, plain_key kv.1 ∧ plain_value kv.2) kvs →
  load_env (Some (render_env kvs)) = list_to_map (rev kvs).
Proof.
  intros H. unfold load_env. rewrite splitlines_render_env.
  - by rewrite foldl_load_env_line, foldl_insert_list_to_map.
  - eapply Forall_impl; [exact H|]. intros [k v] [(_ & Hk & _) (_ & Hv)].
    by apply no_linebreak_env_line.
Qed.

Lemma load_env_line_entry (values : Config) (line k v : pystr) :
  load_env_line values line !! k = Some v →
  values !! k = Some v
  ∨ (strip k = k ∧ strip v = v ∧ (equals_sign ∉ k) ∧ (head k ≠ Some hash_sign)).
Proof.
  unfold load_env_line.
  pose proof (strip_headspace line) as [Hhead _].
  destruct (strip line) as [|c rest] eqn:Hline; [by left|].
  destruct (N.eqb_spec c hash_sign) as [->|Hc]; [by left|].
  destruct (split_first equals_sign (c :: rest)) as [[key raw]|] eqn:Hsplit; [|by left].
  destruct (decide (strip key = k)) as [<-|Hne]; [|rewrite lookup_insert_ne by done; by left].
  rewrite lookup_insert_eq. intros [= <-]. right.
  apply split_first_Some in Hsplit as [Heq Hnot].
  split; [apply strip_idemp|]. split; [apply strip_idemp|].
  split; [by intros ?%strip_elem_of|].
  destruct key as [|c' key']; [done|].
  injection Heq as <- _. cbn [headspace] in Hhead.
  unfold strip. rewrite lstrip_fixed by done. rewrite rstrip_cons by done.
  simpl. congruence.
Qed.

(** X2. Whatever the file holds, every key and every value [load_env]
    returns is trimmed, and no key contains ["="] or starts with ["#"]. *)
Theorem load_env_entries_trimmed (text : option pystr) (k v : pystr) :
  load_env text !! k = Some v →
  strip k = k ∧ strip v = v ∧ (equals_sign ∉ k) ∧ (head k ≠ Some hash_sign).
Proof.
  destruct text as [text|]; [|cbn [load_env]; by rewrite lookup_empty].
  unfold load_env. generalize (splitlines text). intros lines.
  assert (∀ values : Config,
    (∀ k v, values !! k = Some v →
       strip k = k ∧ strip v = v ∧ (equals_sign ∉ k) ∧ (head k ≠ Some hash_sign)) →
    foldl load_env_line values lines !! k = Some v →
    strip k = k ∧ strip v = v ∧ (equals_sign ∉ k) ∧ (head k ≠ Some hash_sign)) as Hinv.
  { induction lines as [|line lines IH]; intros values Hvalues; [apply Hvalues|].
    cbn [foldl]. apply IH. intros k' v' H'.
    apply load_env_line_entry in H' as [H'|H']; [by apply Hvalues|done]. }
  apply Hinv. intros k' v'. by rewrite lookup_empty.
Qed.

(** ** Resolving the configuration *)

Ltac lit_neq := let H := fresh in intros H; vm_compute in H; discriminate H.

Lemma lookup_setdefault (key value : pystr) (config : Config) (key' : pystr) :
  setdefault key value config !! key'
  = if decide (key = key') then Some (default value (config !! key)) else config !! key'.
Proof.
  unfold setdefault. destruct (config !! key) as [v|] eqn:Hkey.
  - by case_decide; simplify_eq.
  - case_decide; simplify_eq; [by rewrite lookup_insert_eq|by rewrite lookup_insert_ne].
Qed.

(** The configuration after the command-line overrides. *)
Lemma resolve_config_inv args env_values config :
  resolve_config args env_values = Ok config →
  let overridden : Config :=
    match max_emails args with
    | Some n => <[lit "MAX_EMAILS" := str_of_int n]>
    | None => id
    end (match lookback args with
         | Some n => <[lit "LOOKBACK_MINUTES" := str_of_int n]> env_values
         | None => env_values
         end) in
  config = setdefault (lit "GEMINI_MODEL") (lit "gemini-1.5-flash")
             (setdefault (lit "MAX_EMAILS") (lit "15")
               (setdefault (lit "LOOKBACK_MINUTES") (lit "60") overridden))
  ∧ (dry_run args = true
     ∨ filter (λ key, config_missing overridden key = true)
         [lit "GEMINI_API_KEY"; lit "DISCORD_WEBHOOK"] = []).
Proof.
  unfold resolve_config.
  destruct (max_emails args), (lookback args); cbn [id];
    (destruct (filter _ _) as [|m ms] eqn:Hf;
     [intros [= <-]; split; [done|by right]
     |destruct (dry_run args); [intros [= <-]; split; [done|by left]|done]]).
Qed.

Lemma config_missing_overrides args env_values key :
  key ≠ lit "LOOKBACK_MINUTES" → key ≠ lit "MAX_EMAILS" →
  config_missing
    (match max_emails args with
     | Some n => <[lit "MAX_EMAILS" := str_of_int n]>
     | None => id
     end (match lookback args with
          | Some n => <[lit "LOOKBACK_MINUTES" := str_of_int n]> env_values
          | None => env_values
          end)) key
  = config_missing env_values key.
Proof.
  intros H1 H2. unfold config_missing.
  destruct (max_emails args), (lookback args); cbn [id];
    by rewrite ?lookup_insert_ne by done.
Qed.

(** X3. The settings of a resolved configuration: a command-line override
    beats the value of the [.env] file, which beats the default (60
    minutes, 15 mails, the flash model); every other key is passed through
    unchanged.  A value that is present in the file but empty is kept. *)
Theorem resolve_config_settings args env_values config :
  resolve_config args env_values = Ok config →
  config !! lit "LOOKBACK_MINUTES"
    = Some (match lookback args with
            | Some n => str_of_int n
            | None => default (lit "60") (env_values !! lit "LOOKBACK_MINUTES")
            end)
  ∧ config !! lit "MAX_EMAILS"
    = Some (match max_emails args with
            | Some n => str_of_int n
            | None => default (lit "15") (env_values !! lit "MAX_EMAILS")
            end)
  ∧ config !! lit "GEMINI_MODEL"
    = Some (default (lit "gemini-1.5-flash") (env_values !! lit "GEMINI_MODEL"))
  ∧ ∀ key, key ≠ lit "LOOKBACK_MINUTES" → key ≠ lit "MAX_EMAILS" →
           key ≠ lit "GEMINI_MODEL" → config !! key = env_values !! key.
Proof.
  intros [-> _]%resolve_config_inv.
  assert (lit "GEMINI_MODEL" ≠ lit "LOOKBACK_MINUTES") as H1 by lit_neq.
  assert (lit "GEMINI_MODEL" ≠ lit "MAX_EMAILS") as H2 by lit_neq.
  assert (lit "MAX_EMAILS" ≠ lit "LOOKBACK_MINUTES") as H3 by lit_neq.
  repeat split; [| | |intros key K1 K2 K3];
    rewrite !lookup_setdefault; repeat case_decide; try congruence;
    destruct (max_emails args), (lookback args); cbn [id];
    rewrite ?lookup_insert_eq, ?lookup_insert_ne by congruence;
    rewrite ?lookup_insert_eq, ?lookup_insert_ne by congruence; done.
Qed.

Lemma resolve_config_filter args env_values :
  filter (λ key, config_missing
            (match max_emails args with
             | Some n => <[lit "MAX_EMAILS" := str_of_int n]>
             | None => id
             end (match lookback args with
                  | Some n => <[lit "LOOKBACK_MINUTES" := str_of_int n]> env_values
                  | None => env_values
                  end)) key = true)
         [lit "GEMINI_API_KEY"; lit "DISCORD_WEBHOOK"]
  = filter (λ key, config_missing env_values key = true)
           [lit "GEMINI_API_KEY"; lit "DISCORD_WEBHOOK"].
Proof.
  rewrite !filter_cons, !filter_nil.
  by rewrite !config_missing_overrides by lit_neq.
Qed.

Lemma resolve_config_outcome args env_values :
  resolve_config args env_values
  = match filter (λ key, config_missing env_values key = true)
            [lit "GEMINI_API_KEY"; lit "DISCORD_WEBHOOK"] with
    | [] => resolve_config (mkArgs (lookback args) (max_emails args) true) env_values
    | missing =>
        if dry_run args
        then resolve_config (mkArgs (lookback args) (max_emails args) true) env_values
        else Raise (ConfigError missing)
    end
  ∧ is_ok (resolve_config (mkArgs (lookback args) (max_emails args) true) env_values)
    = true.
Proof.
  rewrite <- (resolve_config_filter args env_values).
  unfold resolve_config. cbn [lookback max_emails dry_run].
  destruct (max_emails args), (lookback args); cbn [id];
    destruct (filter _ _); split; try done; by destruct (dry_run args).
Qed.

(** X4. Outside simulation mode the configuration resolves exactly when the
    API key and the webhook are both present and not empty; otherwise
    [ConfigError] names the keys that are absent or empty, the API key
    first.  In simulation mode it always resolves. *)
Theorem resolve_config_credentials args env_values :
  let missing := filter (λ key, config_missing env_values key = true)
                   [lit "GEMINI_API_KEY"; lit "DISCORD_WEBHOOK"] in
  (missing = [] ↔
     ∃ api_key webhook,
       env_values !! lit "GEMINI_API_KEY" = Some api_key ∧ api_key ≠ []
       ∧ env_values !! lit "DISCORD_WEBHOOK" = Some webhook ∧ webhook ≠ [])
  ∧ (dry_run args = true ∨ missing = [] →
       is_ok (resolve_config args env_values) = true)
  ∧ (dry_run args = false → missing ≠ [] →
       resolve_config args env_values = Raise (ConfigError missing)).
Proof.
  intros missing. split; [|split].
  - unfold missing. rewrite !filter_cons, filter_nil. unfold config_missing.
    destruct (env_values !! lit "GEMINI_API_KEY") as [[|a api]|],
             (env_values !! lit "DISCORD_WEBHOOK") as [[|b hook]|];
      repeat case_decide; try done;
      (split; [try done|intros (x & y & ? & ? & ? & ?); simplify_eq]);
      [intros _; eauto 10|done].
  - destruct (resolve_config_outcome args env_values) as [-> Hok]. fold missing.
    intros [Hdry| ->]; [|done]. rewrite Hdry. by destruct missing.
  - intros Hlive Hne. destruct (resolve_config_outcome args env_values) as [-> _].
    fold missing. destruct missing; [done|]. by rewrite Hlive.
Qed.

(** X5. A configuration resolved outside simulation mode carries an API key
    and a webhook that are not empty, so that the lookups of [main] in it
    ([LOOKBACK_MINUTES], [MAX_EMAILS] and, before the delivery,
    [DISCORD_WEBHOOK]) never raise [KeyError]. *)
Theorem resolve_config_lookups_succeed args env_values config :
  resolve_config args env_values = Ok config →
  (∀ w, ∃ v, config_item config (lit "LOOKBACK_MINUTES") w = (Ok v, w))
  ∧ (∀ w, ∃ v, config_item config (lit "MAX_EMAILS") w = (Ok v, w))
  ∧ (dry_run args = false →
       ∃ api_key webhook,
         config !! lit "GEMINI_API_KEY" = Some api_key ∧ api_key ≠ []
         ∧ config !! lit "DISCORD_WEBHOOK" = Some webhook ∧ webhook ≠ []
         ∧ ∀ w, config_item config (lit "DISCORD_WEBHOOK") w = (Ok webhook, w)).
Proof.
  intros Hc. pose proof Hc as [-> Hmiss]%resolve_config_inv.
  assert (lit "GEMINI_MODEL" ≠ lit "LOOKBACK_MINUTES") as H1 by lit_neq.
  assert (lit "GEMINI_MODEL" ≠ lit "MAX_EMAILS") as H2 by lit_neq.
  assert (lit "MAX_EMAILS" ≠ lit "LOOKBACK_MINUTES") as H3 by lit_neq.
  split; [|split].
  - intros w. unfold config_item. rewrite !lookup_setdefault.
    repeat case_decide; try congruence. by eexists.
  - intros w. unfold config_item. rewrite !lookup_setdefault.
    repeat case_decide; try congruence. by eexists.
  - intros Hlive. destruct Hmiss as [Hdry|Hmiss]; [congruence|].
    rewrite resolve_config_filter in Hmiss.
    rewrite !filter_cons, filter_nil in Hmiss. unfold config_missing in Hmiss.
    unfold config_item. rewrite !lookup_setdefault.
    assert (lit "LOOKBACK_MINUTES" ≠ lit "GEMINI_API_KEY") by lit_neq.
    assert (lit "MAX_EMAILS" ≠ lit "GEMINI_API_KEY") by lit_neq.
    assert (lit "GEMINI_MODEL" ≠ lit "GEMINI_API_KEY") by lit_neq.
    assert (lit "LOOKBACK_MINUTES" ≠ lit "DISCORD_WEBHOOK") by lit_neq.
    assert (lit "MAX_EMAILS" ≠ lit "DISCORD_WEBHOOK") by lit_neq.
    assert (lit "GEMINI_MODEL" ≠ lit "DISCORD_WEBHOOK") by lit_neq.
    repeat case_decide; try congruence.
    destruct (max_emails args), (lookback args); cbn [id];
      rewrite ?lookup_insert_ne by congruence;
      destruct (env_values !! lit "GEMINI_API_KEY") as [[|a api]|],
               (env_values !! lit "DISCORD_WEBHOOK") as [[|b hook]|];
      try done; eauto 10.
Qed.

(** ** More on the tabular parser *)







(** ** Reading the response of the backend *)

Lemma assoc_head (key : pystr) (v : Json) (fields : list (pystr * Json)) :
  assoc key ((key, v) :: fields) = v.
Proof. cbn [assoc]. by rewrite str_eqb_refl. Qed.

Lemma scan_parts_texts (parts : list pystr) :
  scan_parts (part_json <$> parts)
  = Ok (strip <$> head (filter (λ text : pystr, text ≠ []) parts)).
Proof.
  induction parts as [|text parts IH]; [done|].
  cbn [fmap list_fmap scan_parts]. unfold part_json at 1, json_get.
  rewrite assoc_head. destruct text as [|c text].
  - cbn [truthy]. rewrite IH. by rewrite filter_cons_False by (by intros []).
  - cbn [truthy]. by rewrite filter_cons_True by done.
Qed.

Lemma scan_candidates_texts (candidates : list (list pystr)) :
  scan_candidates (candidate_json <$> candidates) = Ok (strip <$> first_text candidates).
Proof.
  unfold first_text. induction candidates as [|parts candidates IH]; [done|].
  cbn [fmap list_fmap scan_candidates concat]. unfold candidate_json at 1, json_get.
  rewrite assoc_head. cbn [or_else truthy]. rewrite assoc_head.
  assert (json_iter (or_else (JArr (part_json <$> parts)) (JArr []))
          = Ok (part_json <$> parts)) as ->.
  { by destruct parts. }
  rewrite scan_parts_texts, filter_app.
  destruct (filter (λ text : pystr, text ≠ []) parts) as [|t ts]; [|done].
  exact IH.
Qed.

(** X8. For a response of the documented shape the summary is the first
    text that is not empty, candidates and parts taken in order, trimmed;
    when no part has a text that is not empty (no candidate, no part, empty
    texts only), the request fails with [RuntimeError]. *)
Theorem extract_text_first_text (candidates : list (list pystr)) :
  extract_text (response_json candidates)
  = match first_text candidates with
    | Some text => Ok (strip text)
    | None => Raise no_text
    end.
Proof.
  unfold extract_text, response_json, json_get. rewrite assoc_head.
  assert (json_iter (or_else (JArr (candidate_json <$> candidates)) (JArr []))
          = Ok (candidate_json <$> candidates)) as ->.
  { by destruct candidates. }
  rewrite scan_candidates_texts. by destruct (first_text candidates).
Qed.

(** X9. A response that is not a JSON object makes the request fail with
    [AttributeError]; an object whose [candidates] is absent, null or empty
    makes it fail with [RuntimeError]; an object whose [candidates] is a
    number makes it fail with [TypeError]. *)
Theorem extract_text_malformed (response : Json) :
  ((∀ fields, response ≠ JObj fields) → extract_text response = Raise AttributeError)
  ∧ (∀ fields, response = JObj fields →
       truthy (assoc (lit "candidates") fields) = false →
       extract_text response = Raise no_text)
  ∧ (∀ fields n, response = JObj fields →
       assoc (lit "candidates") fields = JInt n → n ≠ 0%Z →
       extract_text response = Raise TypeError).
Proof.
  split; [|split].
  - intros Hno. destruct response; try done. by destruct (Hno fields).
  - intros fields -> Hfalsy. unfold extract_text, json_get, or_else.
    by rewrite Hfalsy.
  - intros fields n -> Hn Hnz. unfold extract_text, json_get, or_else.
    rewrite Hn. cbn [truthy]. destruct (Z.eqb_spec n 0) as [->|_]; done.
Qed.

(** ** The two clients *)

Section ClientFacts.
Context (env : Env).

Lemma gemini_request_run api_key model prompt w :
  gemini_request env api_key model prompt w
  = (match urlopen env w (mkRequest (gemini_url api_key model) (GeminiPayload prompt)) with
     | Raise exc => Raise exc
     | Ok (Raise exc) => Raise exc
     | Ok (Ok response) => extract_text response
     end,
     mkWorld (fs w)
       (trace w ++ EvHttp (mkRequest (gemini_url api_key model) (GeminiPayload prompt))
          :: gemini_error_log
               (urlopen env w (mkRequest (gemini_url api_key model) (GeminiPayload prompt))))).
Proof.
  unfold gemini_request, bind, try_except, http_post.
  destruct (urlopen env w _) as [[response|bad]|[]];
    cbn [gemini_error_log lift raise log emit bind fs trace];
    rewrite <- ?app_assoc; done.
Qed.


Lemma post_to_discord_run webhook_url payload w :
  post_to_discord env webhook_url payload w
  = (match urlopen env w (mkRequest webhook_url (DiscordPayload payload)) with
     | Raise exc => Raise exc
     | Ok _ => Ok tt
     end,
     mkWorld (fs w)
       (trace w ++ EvHttp (mkRequest webhook_url (DiscordPayload payload))
          :: discord_error_log
               (urlopen env w (mkRequest webhook_url (DiscordPayload payload))))).
Proof.
  unfold post_to_discord, bind, try_except, http_post.
  destruct (urlopen env w _) as [body|[]];
    cbn [discord_error_log lift raise log emit bind fs trace ret];
    rewrite <- ?app_assoc; done.
Qed.

(** X11. A call of [post_to_discord] sends exactly one request, to the
    webhook and carrying the content, and never touches the files.  It
    returns when the webhook answers, whatever the answer holds, and raises
    the exception of the transport unchanged otherwise, after a log entry
    when it is an [HTTPError] or a [URLError]: no failure is swallowed. *)
Theorem post_to_discord_outcome webhook_url payload w :
  let req := mkRequest webhook_url (DiscordPayload payload) in
  let answer := urlopen env w req in
  let run := post_to_discord env webhook_url payload w in
  fs run.2 = fs w
  ∧ trace run.2 = trace w ++ EvHttp req :: discord_error_log answer
  ∧ discord_posts (trace run.2) = discord_posts (trace w) ++ [payload]
  ∧ run.1 = match answer with
            | Raise exc => Raise exc
            | Ok _ => Ok tt
            end.
Proof.
  cbv zeta. rewrite post_to_discord_run. cbn [fst snd fs trace].
  repeat split. rewrite discord_posts_app. f_equal.
  by destruct (urlopen env w _) as [body|[]].
Qed.

Lemma failure_logs_app t1 t2 :
  failure_logs (t1 ++ t2) = failure_logs t1 ++ failure_logs t2.
Proof. apply omap_app. Qed.

Lemma gemini_request_failure_logs api_key model prompt w :
  failure_logs (trace (gemini_request env api_key model prompt w).2)
  = failure_logs (trace w).
Proof.
  rewrite gemini_request_run. cbn [snd trace]. rewrite failure_logs_app.
  destruct (urlopen env w _) as [[response|bad]|[]]; apply app_nil_r.
Qed.

(** X12. Outside simulation mode every failed summarization leaves one
    entry in the log, with the subject of its row (or nothing when the row
    has no subject) and the exception, in the order of the rows; a
    summarization that succeeds leaves none; and the files are not
    touched. *)
Theorem summarize_emails_failure_log (rows : list Row) (config : Config) (w : World) :
  let api_key := default [] (config !! lit "GEMINI_API_KEY") in
  let model := default (lit "gemini-1.5-flash") (config !! lit "GEMINI_MODEL") in
  let run := summarize_emails env rows config false w in
  failure_logs (trace run.2)
  = failure_logs (trace w)
    ++ omap (λ a, match a.2 with
                  | Raise exc => Some (a.1 !! lit "subject", exc)
                  | Ok _ => None
                  end) (attempts env api_key model rows w).1
  ∧ fs run.2 = fs w.
Proof.
  cbv zeta. rewrite summarize_emails_live. cbn [snd].
  generalize (default [] (config !! lit "GEMINI_API_KEY")),
             (default (lit "gemini-1.5-flash") (config !! lit "GEMINI_MODEL")).
  intros api_key model. revert w. induction rows as [|row rows IH]; intros w.
  - cbn. by rewrite app_nil_r.
  - cbn [attempts fst snd].
    pose proof (gemini_request_failure_logs api_key model (build_prompt row) w) as Hlog.
    pose proof (gemini_request_run api_key model (build_prompt row) w) as Hrun.
    destruct (gemini_request env api_key model (build_prompt row) w) as [[text|exc] w'].
    + cbn [fst snd] in *. destruct (IH w') as [-> ->].
      cbn [omap snd fst]. injection Hrun as _ ->. by rewrite Hlog.
    + cbn [fst snd] in *.
      destruct (IH (log (LogSummarizationFailed (row !! lit "subject") exc) w').2)
        as [-> ->].
      cbn [omap snd fst log emit trace fs]. injection Hrun as _ ->. cbn [fs].
      rewrite failure_logs_app, Hlog. cbn. by rewrite <- app_assoc.
Qed.

End ClientFacts.

(** ** Runs that stop early *)

Section RunFacts.
Context (env : Env).

(** X13. Outside simulation mode a run without its credentials ends with
    exit status 1 before anything is done: no temporary file is made, no
    process is started, no request is sent; the only trace is the log entry
    naming the missing keys. *)
Theorem script_config_error args env_values w :
  dry_run args = false →
  missing_keys env_values ≠ [] →
  script env args env_values w
  = (1%Z, mkWorld (fs w)
            (trace w ++ [EvLog (LogConfigError (missing_keys env_values))])).
Proof.
  intros Hlive Hmiss. unfold script, main, bind at 1, lift.
  destruct (resolve_config_outcome args env_values) as [-> _].
  fold (missing_keys env_values). destruct (missing_keys env_values); [done|].
  by rewrite Hlive.
Qed.

Lemma resolved_numbers args env_values config :
  resolve_config args env_values = Ok config →
  is_Some (config !! lit "LOOKBACK_MINUTES") ∧ is_Some (config !! lit "MAX_EMAILS").
Proof.
  intros [-> _]%resolve_config_inv.
  assert (lit "GEMINI_MODEL" ≠ lit "LOOKBACK_MINUTES") as H1 by lit_neq.
  assert (lit "GEMINI_MODEL" ≠ lit "MAX_EMAILS") as H2 by lit_neq.
  assert (lit "MAX_EMAILS" ≠ lit "LOOKBACK_MINUTES") as H3 by lit_neq.
  rewrite !lookup_setdefault. repeat case_decide; try congruence. by split.
Qed.

(** X14. When the lookback or the cap of a resolved configuration does not
    read as an integer, [main] raises [ValueError] and the run ends with
    exit status 1, the world being left as it was. *)
Theorem script_bad_number args env_values w config :
  resolve_config args env_values = Ok config →
  (∃ v, config !! lit "LOOKBACK_MINUTES" = Some v ∧ int_of_str env v = None)
  ∨ (∃ v, config !! lit "MAX_EMAILS" = Some v ∧ int_of_str env v = None) →
  main env args env_values w = (Raise ValueError, w)
  ∧ script env args env_values w = (1%Z, w).
Proof.
  intros Hc Hbad.
  assert (main env args env_values w = (Raise ValueError, w)) as Hmain.
  { destruct (resolved_numbers _ _ _ Hc) as [[lb Hlb] [mx Hmx]].
    unfold main, bind, lift, config_int, config_item, bind. rewrite Hc, Hlb.
    unfold ret at 1.
    destruct (int_of_str env lb) as [n|] eqn:Hn; [|done]. unfold ret at 1.
    rewrite Hmx. unfold ret at 1.
    destruct (int_of_str env mx) as [m|] eqn:Hm; [|done].
    destruct Hbad as [(v & Hv & Hnone)|(v & Hv & Hnone)]; congruence. }
  split; [done|]. unfold script. by rewrite Hmain.
Qed.

(** X15. When the AppleScript file is missing, [main] raises
    [FileNotFoundError] without starting a process or logging anything; when
    the export process returns a code that is not 0, the failure is logged
    and the run ends with the exit status of that code: the code modulo 256,
    so the code itself when it lies between 1 and 255, and 247 for a process
    killed by signal 9 (code -9).  In both cases no request is sent and the
    temporary file is removed. *)
Theorem export_failures args env_values w config lookback max_emails p :
  starts env args env_values w config lookback max_emails p →
  (fs (created_tmp w p) !! SCRIPT_PATH env = None →
     main env args env_values w
     = (Raise FileNotFoundError, mkWorld (delete p (fs (created_tmp w p))) (trace w))
     ∧ (script env args env_values w).1 = 1%Z)
  ∧ (∀ returncode fs',
       is_Some (fs (created_tmp w p) !! SCRIPT_PATH env) →
       osascript env (launching_world w lookback max_emails p)
         (export_cmd env lookback max_emails p) = Ok (returncode, fs') →
       returncode ≠ 0%Z →
       script env args env_values w
       = (exit_status returncode,
          mkWorld (delete p fs')
            (trace w ++ [EvLog (LogRunningAppleScript max_emails lookback);
                         EvRun (export_cmd env lookback max_emails p);
                         EvLog (LogAppleScriptFailed returncode)]))).
Proof.
  intros Hs. pose proof (main_starts env _ _ _ _ _ _ _ Hs) as Hmain.
  rewrite try_finally_unlink in Hmain. split.
  - intros Hnone.
    assert (main_body env config (dry_run args) lookback max_emails p (created_tmp w p)
            = (Raise FileNotFoundError, created_tmp w p)) as Hbody.
    { unfold main_body, bind at 1, run_applescript, bind at 1, path_exists.
      rewrite Hnone. rewrite bool_decide_eq_false_2 by (by intros [? ?]). done. }
    rewrite Hbody in Hmain. split; [exact Hmain|]. unfold script. by rewrite Hmain.
  - intros returncode fs' Hsome Hrun Hrc.
    assert (main_body env config (dry_run args) lookback max_emails p (created_tmp w p)
            = (Raise (CalledProcessError returncode),
               mkWorld fs'
                 (trace w ++ [EvLog (LogRunningAppleScript max_emails lookback);
                              EvRun (export_cmd env lookback max_emails p)]))) as Hbody.
    { unfold main_body, bind at 1, run_applescript, bind at 1, path_exists.
      rewrite bool_decide_eq_true_2 by done. cbn [negb].
      unfold bind at 1. fold (launching_world w lookback max_emails p).
      cbn [log emit]. unfold subprocess_run_check.
      fold (export_cmd env lookback max_emails p).
      unfold launching_world in Hrun. cbn [log emit snd] in Hrun. rewrite Hrun.
      destruct (Z.eqb_spec returncode 0) as [->|_]; [done|].
      cbn [trace created_tmp fs]. by rewrite <- app_assoc. }
    rewrite Hbody in Hmain. unfold script. rewrite Hmain.
    cbn [fst snd fs trace]. by rewrite <- app_assoc.
Qed.

End RunFacts.

(** ** The delivery *)

Section DeliveryFacts.
Context (env : Env).









(** ** At most one digest *)

Lemma keeps_posts_at_most_one {A} (m : M A) :
  keeps discord_posts m → posts_at_most_one m.
Proof. intros Hk w. exists []. rewrite Hk, app_nil_r. split; [done|simpl; lia]. Qed.

Lemma posts_bind_keeps_l {A B} (m : M A) (k : A → M B) :
  keeps discord_posts m → (∀ a, posts_at_most_one (k a)) → posts_at_most_one (bind m k).
Proof.
  intros Hm Hk w. unfold bind. specialize (Hm w).
  destruct (m w) as [[a|e] w']; cbn [snd] in *.
  - destruct (Hk a w') as (posts & Hposts & Hlen). exists posts. by rewrite Hposts, Hm.
  - exists []. rewrite Hm, app_nil_r. split; [done|simpl; lia].
Qed.

Lemma posts_bind_keeps_r {A B} (m : M A) (k : A → M B) :
  posts_at_most_one m → (∀ a, keeps discord_posts (k a)) → posts_at_most_one (bind m k).
Proof.
  intros Hm Hk w. unfold bind. destruct (Hm w) as (posts & Hposts & Hlen).
  destruct (m w) as [[a|e] w']; cbn [snd] in *; exists posts; [|done].
  by rewrite Hk.
Qed.

Lemma posts_try_finally {A} (m : M A) (f : M unit) :
  posts_at_most_one m → keeps discord_posts f → posts_at_most_one (try_finally m f).
Proof.
  intros Hm Hf w. unfold try_finally. destruct (Hm w) as (posts & Hposts & Hlen).
  destruct (m w) as [r w']. specialize (Hf w').
  destruct (f w') as [[[]|e] w'']; cbn [snd] in *; exists posts; by rewrite Hf.
Qed.

Lemma posts_post_to_discord webhook_url payload :
  posts_at_most_one (post_to_discord env webhook_url payload).
Proof.
  intros w. exists [payload]. rewrite post_to_discord_run. cbn [snd trace].
  split; [|simpl; lia]. rewrite discord_posts_app. f_equal.
  by destruct (urlopen env w _) as [body|[]].
Qed.

Lemma posts_conclude config dry_run summaries :
  posts_at_most_one (conclude env config dry_run summaries).
Proof.
  destruct dry_run.
  { apply keeps_posts_at_most_one, keeps_conclude_dry_run, offline_discord_posts. }
  unfold conclude. destruct summaries as [|s ss].
  - apply keeps_posts_at_most_one.
    apply keeps_bind; [apply keeps_log, offline_discord_posts|]. intros _. apply keeps_ret.
  - apply posts_bind_keeps_l; [by intros w|]. intros ts.
    apply posts_bind_keeps_l; [apply keeps_config_item|]. intros hook.
    apply posts_bind_keeps_r; [apply posts_post_to_discord|]. intros _.
    apply keeps_bind; [apply keeps_log, offline_discord_posts|]. intros _. apply keeps_ret.
Qed.

(** X18. No run posts more than once to the webhook, whatever the export,
    the backend and the webhook do, and whether it returns or raises. *)
Theorem main_posts_at_most_once args env_values w :
  ∃ posts,
    discord_posts (trace (script env args env_values w).2)
    = discord_posts (trace w) ++ posts
    ∧ (length posts ≤ 1)%nat.
Proof.
  rewrite (script_offline env _ _ _ _ offline_discord_posts).
  revert w. change (posts_at_most_one (main env args env_values)).
  unfold main.
  apply posts_bind_keeps_l; [apply keeps_lift|]. intros config.
  apply posts_bind_keeps_l; [apply keeps_config_int|]. intros lb.
  apply posts_bind_keeps_l; [apply keeps_config_int|]. intros mx.
  apply posts_bind_keeps_l; [apply keeps_mkstemp|]. intros p.
  apply posts_try_finally; [|apply keeps_unlink].
  apply posts_bind_keeps_l; [apply keeps_run_applescript, offline_discord_posts|].
  intros _. unfold process_export.
  apply posts_bind_keeps_l; [apply keeps_parse_tsv, offline_discord_posts|].
  intros [|r rs].
  - apply keeps_posts_at_most_one.
    apply keeps_bind; [apply keeps_log, offline_discord_posts|]. intros _. apply keeps_ret.
  - apply posts_bind_keeps_l; [apply keeps_log, offline_discord_posts|]. intros _.
    apply posts_bind_keeps_l.
    + apply keeps_summarize_emails; [apply offline_discord_posts|].
      apply discord_posts_ignores_gemini.
    + intros summaries. apply posts_conclude.
Qed.

(** ** What a run leaves on disk *)









End DeliveryFacts.

(** ** More on the [.env] file and on the digest *)

Lemma split_first_None (sep : N) (s : pystr) :
  sep ∉ s → split_first sep s = None.
Proof.
  induction s as [|c s IH]; [done|]. intros [Hc Hs]%not_elem_of_cons. simpl.
  destruct (N.eqb_spec c sep) as [->|_]; [done|]. by rewrite IH.
Qed.

Lemma load_env_line_skipped (values : Config) (line : pystr) :
  skipped_line line → load_env_line values line = values.
Proof.
  unfold skipped_line, load_env_line.
  destruct (strip line) as [|c rest]; [done|].
  intros [H|[H|H]]; [done| |].
  - injection H as ->. by rewrite N.eqb_refl.
  - destruct (c =? hash_sign); [done|]. by rewrite split_first_None.
Qed.

Lemma splitlines_unlines (lines : list pystr) :
  Forall (λ l, no_linebreak l = true) lines → splitlines (unlines lines) = lines.
Proof.
  unfold splitlines. induction 1 as [|l lines Hl _ IH]; [done|].
  cbn [unlines flat_map]. unfold nl. rewrite <- app_assoc.
  change ([LF] ++ ?x) with (LF :: x).
  rewrite splitlines_aux_line by done. f_equal. exact IH.
Qed.

(** X20. Blank lines, comment lines (a ["#"] first, after the leading
    blanks) and lines without ["="] do not count: a file loads as the same
    file without these lines. *)
Theorem load_env_skips_lines (lines : list pystr) :
  Forall (λ l, no_linebreak l = true) lines →
  load_env (Some (unlines lines))
  = load_env (Some (unlines (filter (λ l, ¬ skipped_line l) lines))).
Proof.
  intros Hlines. unfold load_env.
  rewrite !splitlines_unlines;
    [|apply Forall_forall; intros x [_ Hx]%list_elem_of_filter;
      by eapply Forall_forall in Hlines|done].
  generalize (∅ : Config). clear Hlines.
  induction lines as [|l lines IH]; intros values; [done|].
  rewrite filter_cons. cbn [foldl]. case_decide as Hl.
  - cbn [foldl]. apply IH.
  - rewrite load_env_line_skipped by done. apply IH.
Qed.

Lemma digest_title_not_divider (timestamp : pystr) :
  str_eqb (digest_title timestamp) divider = false.
Proof. reflexivity. Qed.

(** X21. The digest always begins with its title line (when the title fits
    the cap), and for no summary at all it is the title line alone: the
    title is not taken for a trailing divider. *)
Theorem format_discord_payload_title (timestamp : pystr) (summaries : list Summary) :
  (length (digest_title timestamp) ≤ 1900)%nat →
  digest_title timestamp `prefix_of` format_discord_payload timestamp summaries
  ∧ format_discord_payload timestamp [] = digest_title timestamp.
Proof.
  intros Hlen. split.
  - destruct summaries as [|s ss] using rev_ind.
    + exists []. rewrite app_nil_r. unfold format_discord_payload. cbn [foldl].
      unfold drop_trailing_divider. cbn [last].
      rewrite digest_title_not_divider. cbn [join]. by apply take_ge.
    + rewrite format_discord_payload_snoc. unfold digest_lines.
      destruct (flat_map entry_lines ss ++ [entry_header s; strip (summary s)])
        as [|l ls] eqn:Hl; [by destruct (flat_map entry_lines ss)|].
      cbn [join]. rewrite take_app_ge by done.
      by eexists.
  - unfold format_discord_payload. cbn [foldl]. unfold drop_trailing_divider.
    cbn [last]. rewrite digest_title_not_divider. cbn [join]. by apply take_ge.
Qed.

(** ** The further properties on concrete inputs *)

Ltac not_in_literal :=
  let H := fresh in
  intros H; apply list_elem_of_In in H; vm_compute in H; intuition discriminate.

(** The cap assigned twice is read as its last assignment, and the API
    key keeps the ["="] of its value. *)
Lemma load_env_round_trip_witness :
  load_env (Some (render_env demo_assignments)) !! lit "MAX_EMAILS" = Some (lit "7")
  ∧ load_env (Some (render_env demo_assignments)) !! lit "GEMINI_API_KEY"
    = Some (lit "abc=def").
Proof.
  rewrite (load_env_round_trip demo_assignments); [by vm_compute|].
  repeat constructor; try (by vm_compute); not_in_literal.
Defined.

Lemma load_env_entries_trimmed_witness :
  strip (lit "MAX_EMAILS") = lit "MAX_EMAILS" ∧ strip (lit "7") = lit "7"
  ∧ (equals_sign ∉ lit "MAX_EMAILS") ∧ (head (lit "MAX_EMAILS") ≠ Some hash_sign).
Proof.
  apply (load_env_entries_trimmed (Some (unlines demo_lines))). by vm_compute.
Defined.

Lemma load_env_skips_lines_witness :
  load_env (Some (unlines demo_lines)) = {[ lit "MAX_EMAILS" := lit "7" ]}.
Proof.
  rewrite (load_env_skips_lines demo_lines); [by vm_compute|].
  repeat constructor.
Defined.

Lemma resolve_config_settings_witness :
  demo_config 5 true bad_values !! lit "MAX_EMAILS" = Some (lit "5")
  ∧ demo_config 5 true bad_values !! lit "LOOKBACK_MINUTES" = Some (lit "60").
Proof.
  destruct (resolve_config_settings (demo_args 5 true) bad_values
              (demo_config 5 true bad_values)) as (Hlb & Hmx & _); [by vm_compute|].
  split; [exact Hmx|exact Hlb].
Defined.

Lemma resolve_config_lookups_succeed_witness :
  ∃ api_key webhook,
    demo_config 2 false demo_values !! lit "GEMINI_API_KEY" = Some api_key
    ∧ api_key ≠ []
    ∧ demo_config 2 false demo_values !! lit "DISCORD_WEBHOOK" = Some webhook
    ∧ webhook ≠ [].
Proof.
  destruct (resolve_config_lookups_succeed (demo_args 2 false) demo_values
              (demo_config 2 false demo_values)) as (_ & _ & Hlive); [by vm_compute|].
  destruct (Hlive eq_refl) as (api_key & webhook & H1 & H2 & H3 & H4 & _).
  by exists api_key, webhook.
Defined.

Lemma script_config_error_witness :
  script env_three (demo_args 2 false) ∅ demo_world
  = (1%Z, mkWorld (fs demo_world)
            (trace demo_world ++ [EvLog (LogConfigError (missing_keys ∅))])).
Proof. apply script_config_error; [done|by vm_compute]. Defined.

Lemma script_bad_number_witness :
  script env_three (mkArgs None None true) bad_values demo_world = (1%Z, demo_world).
Proof.
  apply (script_bad_number env_three (mkArgs None None true) bad_values demo_world
           bad_config).
  - by vm_compute.
  - right. exists (lit "many"). split; by vm_compute.
Defined.

Lemma env_failing_starts :
  starts env_failing (demo_args 5 true) ∅ demo_world (demo_config 5 true ∅) 60 5 demo_tmp.
Proof. repeat split; by vm_compute. Qed.

(** The export process exits with status 1: so does the run, after three
    trace entries. *)
Lemma export_failures_witness :
  script env_failing (demo_args 5 true) ∅ demo_world
  = (1%Z,
     mkWorld (delete demo_tmp (fs (created_tmp demo_world demo_tmp)))
       (trace demo_world
        ++ [EvLog (LogRunningAppleScript 5 60);
            EvRun (export_cmd env_failing 60 5 demo_tmp);
            EvLog (LogAppleScriptFailed 1)])).
Proof.
  destruct (export_failures env_failing (demo_args 5 true) ∅ demo_world
              (demo_config 5 true ∅) 60 5 demo_tmp env_failing_starts) as [_ Hstatus].
  apply (Hstatus 1%Z (fs (created_tmp demo_world demo_tmp)));
    [exists []; by vm_compute|done|done].
Defined.




Lemma format_discord_payload_title_witness :
  format_discord_payload (lit "2024-01-01 10:00") []
  = lit "**UTD Mail Digest - 2024-01-01 10:00**".
Proof.
  destruct (format_discord_payload_title (lit "2024-01-01 10:00") []) as [_ ->].
  - vm_compute. lia.
  - by vm_compute.
Defined.
